(** * Aspect-based sentiment analysis: a shallow embedding of the analysis core

    Sources embedded here:
    - [src/app/preprocessing.py]  ([clean_text], [get_sentences])
    - [src/app/config.py]         (defaults)
    - [src/sentiment_analyzer.py] (ranker, the two strategies, [analyze])
    - [src/app/main.py]           (dataset loaders, the command-line runner)

    Python [str] is modelled as [string]; a character is a code point below
    256.  Regular-expression substitutions are written out as the scanning
    functions they denote. *)

From Stdlib Require Import ZArith QArith Ascii String Lia DecimalString.
From stdpp Require Import gmap strings list sorting.

Set Warnings "-register-all".

(** ** Characters and character classes *)

Definition chars (s : string) : list ascii := list_ascii_of_string s.
Definition text (l : list ascii) : string := string_of_list_ascii l.

(** [\s] of a [str] pattern, which is also the set removed by [str.strip()]:
    the code points for which [str.isspace()] holds. *)
Definition is_space (c : ascii) : bool :=
  let n := nat_of_ascii c in
  ((9 <=? n) && (n <=? 13)) || ((28 <=? n) && (n <=? 32))
  || (n =? 133) || (n =? 160).

(** [[A-Za-z]] *)
Definition is_letter (c : ascii) : bool :=
  let n := nat_of_ascii c in
  ((65 <=? n) && (n <=? 90)) || ((97 <=? n) && (n <=? 122)).

(** [[.!?]] *)
Definition is_punct (c : ascii) : bool :=
  Ascii.eqb c "."%char || Ascii.eqb c "!"%char || Ascii.eqb c "?"%char.

(** A literal prefix of a pattern: the remainder after it, if it is there. *)
Fixpoint strip_prefix (p s : list ascii) : option (list ascii) :=
  match p, s with
  | [], _ => Some s
  | a :: p', b :: s' => if Ascii.eqb a b then strip_prefix p' s' else None
  | _ :: _, [] => None
  end.

(** [\s*], greedy. *)
Fixpoint drop_spaces (s : list ascii) : list ascii :=
  match s with
  | c :: s' => if is_space c then drop_spaces s' else s
  | [] => []
  end.

(** [re.sub(pattern, repl, s)] for a pattern that never matches the empty
    string: [m] matches the pattern at the head of its argument and returns
    what follows the match.  [skip] counts the characters of the current
    match still to be consumed. *)
Fixpoint re_sub (m : list ascii -> option (list ascii)) (repl : list ascii)
    (skip : nat) (s : list ascii) : list ascii :=
  match s with
  | [] => []
  | c :: s' =>
      match skip with
      | S k => re_sub m repl k s'
      | O =>
          match m s with
          | Some rest => repl ++ re_sub m repl (length s' - length rest) s'
          | None => c :: re_sub m repl 0 s'
          end
      end
  end.

(** ** Text Normalizer ([src/app/preprocessing.py]) *)

(** The pattern [<br\s*/?>] at the head of [s].  The three parts after
    [<br] match disjoint character sets, so the greedy choice is the only
    one and backtracking finds nothing more. *)
Definition match_br (s : list ascii) : option (list ascii) :=
  match strip_prefix (chars "<br") s with
  | Some s1 =>
      let s2 := drop_spaces s1 in
      let s3 := match strip_prefix (chars "/") s2 with
                | Some t => t
                | None => s2
                end in
      strip_prefix (chars ">") s3
  | None => None
  end.

(** [re.sub(r"<br\s*/?>", " ", review)] *)
Definition sub_br (s : list ascii) : list ascii :=
  re_sub match_br (chars " ") 0 s.

(** [re.sub(r'([.!?])(?=[A-Za-z])', r'\1 ', cleaned)] *)
Fixpoint sub_punct (s : list ascii) : list ascii :=
  match s with
  | [] => []
  | c :: s' =>
      if is_punct c && match s' with d :: _ => is_letter d | [] => false end
      then c :: " "%char :: sub_punct s'
      else c :: sub_punct s'
  end.

(** [re.sub(r'\s+', ' ', cleaned)]: one space for every maximal run of
    whitespace, emitted at the last character of the run. *)
Fixpoint collapse_ws (s : list ascii) : list ascii :=
  match s with
  | [] => []
  | c :: s' =>
      if is_space c then
        match s' with
        | d :: _ => if is_space d then collapse_ws s' else " "%char :: collapse_ws s'
        | [] => [" "%char]
        end
      else c :: collapse_ws s'
  end.

(** [str.rstrip()] and [str.strip()] *)
Fixpoint rstrip (s : list ascii) : list ascii :=
  match s with
  | [] => []
  | c :: s' =>
      match rstrip s' with
      | [] => if is_space c then [] else [c]
      | r => c :: r
      end
  end.

Definition strip (s : list ascii) : list ascii := rstrip (drop_spaces s).

Definition clean_chars (s : list ascii) : list ascii :=
  let cleaned := sub_br s in
  let cleaned := sub_punct cleaned in
  strip (collapse_ws cleaned).

Definition clean_text (review : string) : string :=
  text (clean_chars (chars review)).


(** [get_sentences] delegates to NLTK's [sent_tokenize]; see [External]. *)

(** ** Python values, exceptions and effects *)

(** The values that cross the strategy boundary: what [json.loads] yields
    and what the row dictionaries hold.  A [dict] keeps its items in
    insertion order. *)
Inductive value : Type :=
  | VNone
  | VBool (b : bool)
  | VInt (z : Z)
  | VFloat (q : Q)
  | VStr (s : string)
  | VList (l : list value)
  | VDict (items : list (string * value)).

(** An instance of a subclass of [Exception]: the class name
    ([type(e).__name__]), the names of its proper base classes below
    [Exception], and [str(e)].  These are the exceptions that the
    [except Exception] and [except json.JSONDecodeError] clauses of the
    source examine. *)
Record exn : Type := mk_exn {
  exn_name : string;
  exn_bases : list string;
  exn_msg : string
}.

Definition isinstance (e : exn) (cls : string) : bool :=
  String.eqb (exn_name e) cls || existsb (String.eqb cls) (exn_bases e).

Definition ValueError (msg : string) : exn := mk_exn "ValueError" [] msg.
Definition IndexError (msg : string) : exn := mk_exn "IndexError" ["LookupError"%string] msg.
Definition TypeError (msg : string) : exn := mk_exn "TypeError" [] msg.
Definition AttributeError (msg : string) : exn := mk_exn "AttributeError" [] msg.
Definition JSONDecodeError (msg : string) : exn :=
  mk_exn "JSONDecodeError" ["ValueError"%string] msg.

Inductive result (A : Type) : Type :=
  | Ok (a : A)
  | Raise (e : exn).
Arguments Ok {A} a.
Arguments Raise {A} e.

(** [type(v).__name__] *)
Definition type_name (v : value) : string :=
  match v with
  | VNone => "NoneType"
  | VBool _ => "bool"
  | VInt _ => "int"
  | VFloat _ => "float"
  | VStr _ => "str"
  | VList _ => "list"
  | VDict _ => "dict"
  end.

(** [l[i]] for a non-negative index. *)
Definition index {A : Type} (l : list A) (i : nat) : result A :=
  match l !! i with
  | Some x => Ok x
  | None => Raise (IndexError "list index out of range")
  end.

(** [d.get(key, default)] on a [dict] in item order. *)
Fixpoint dict_get (items : list (string * value)) (key : string) (default : value) : value :=
  match items with
  | [] => default
  | (k, v) :: rest => if String.eqb k key then v else dict_get rest key default
  end.

(** [sep.join(l)] *)
Fixpoint join (sep : string) (l : list string) : string :=
  match l with
  | [] => ""
  | [x] => x
  | x :: rest => x +:+ sep +:+ join sep rest
  end.

(** ** Configuration ([src/app/config.py]) *)

Definition DEFAULT_ASPECTS : list string :=
  ["acting_performances"; "story_plot"; "pacing"; "visuals"; "direction"; "writing"]%string.

(** The [float] literal [0.55], exactly. *)
Definition DEFAULT_NLI_THRESHOLD : Q := 2476979795053773 # 4503599627370496.

Definition SENTENCE_TRANSFORMER_MODEL : string := "all-MiniLM-L6-v2".
Definition ZERO_SHOT_MODEL : string := "typeform/distilbert-base-uncased-mnli".
Definition OPENAI_MODEL : string := "gpt-4o-mini".
Definition OPENAI_MAX_TOKENS : Z := 180.

(** ** Numbers *)

(** [score < threshold] on finite floats is exact, so it is the order of
    the rationals. *)
Definition Qltb (x y : Q) : bool := negb (Qle_bool y x).

(** [round(score, 3)]: the nearest multiple of 1/1000, ties to even. *)
Definition round3 (q : Q) : Q :=
  let n := (Qnum q * 1000)%Z in
  let d := Zpos (Qden q) in
  let f := (n / d)%Z in
  let r := (n mod d)%Z in
  let z := if (2 * r <? d)%Z then f
           else if (d <? 2 * r)%Z then (f + 1)%Z
           else if Z.even f then f else (f + 1)%Z in
  z # 1000.

(** ** External collaborators

    The libraries and services the core calls, each as a function of the
    outside world [W] that either returns or raises.  Nothing is assumed
    about them here. *)

(** The [dict] returned by a zero-shot classification pipeline. *)
Record zsc_output : Type := mk_zsc_output {
  labels : list string;
  scores : list Q
}.

Class External : Type := {
  W : Type;
  SModel : Type;
  Tensor : Type;
  Pipe : Type;
  Client : Type;
  (** [nltk.tokenize.sent_tokenize(text)] *)
  sent_tokenize : string -> W -> result (list string) * W;
  (** [SentenceTransformer(name)] *)
  SentenceTransformer : string -> W -> result SModel * W;
  (** [model.encode(texts, convert_to_tensor=True)] *)
  encode : SModel -> list string -> W -> result Tensor * W;
  (** [util.cos_sim(asp_emb[i], sent_emb)[0]], as the sequence of scores *)
  cos_sim : Tensor -> nat -> Tensor -> W -> result (list Q) * W;
  (** [torch.topk(sims, k).indices] *)
  topk : list Q -> nat -> W -> result (list nat) * W;
  (** [pipeline(task, model=..., device=...)] *)
  pipeline : string -> string -> Z -> W -> result Pipe * W;
  (** [zsc(text, candidate_labels=..., hypothesis_template=...)] *)
  zsc_call : Pipe -> string -> list string -> string -> W -> result zsc_output * W;
  (** [os.getenv(name)] *)
  getenv : string -> W -> option string * W;
  (** [OpenAI(api_key=...)] *)
  OpenAI : string -> W -> result Client * W;
  (** [client.chat.completions.create(model, messages=[user prompt],
      temperature, max_tokens).choices[0].message.content] *)
  chat_create : Client -> string -> string -> Z -> Z -> W -> result (option string) * W;
  (** [json.loads(s)] *)
  json_loads : string -> result value
}.

(** The process state: the outside world, the three lazily loaded
    module-level singletons, and what has been printed. *)
Record state `{External} : Type := mk_state {
  world : W;
  _sentence_model : option SModel;
  _zsc_pipeline : option Pipe;
  _openai_client : option Client;
  stdout : list string
}.
Arguments mk_state {_} _ _ _ _ _.

(** Computations that read and write the process state and may raise. *)
Definition M `{External} (A : Type) : Type := state -> result A * state.

Definition ret `{External} {A : Type} (a : A) : M A := fun st => (Ok a, st).

Definition raise `{External} {A : Type} (e : exn) : M A := fun st => (Raise e, st).

Definition bind `{External} {A B : Type} (m : M A) (k : A -> M B) : M B :=
  fun st =>
    match m st with
    | (Ok a, st') => k a st'
    | (Raise e, st') => (Raise e, st')
    end.

(** [try: m  except Exception as e: h e] *)
Definition try_except `{External} {A : Type} (m : M A) (h : exn -> M A) : M A :=
  fun st =>
    match m st with
    | (Ok a, st') => (Ok a, st')
    | (Raise e, st') => h e st'
    end.

Definition lift `{External} {A : Type} (r : result A) : M A := fun st => (r, st).

(** A call to the outside world. *)
Definition call `{External} {A : Type} (f : W -> result A * W) : M A :=
  fun st =>
    let '(r, w) := f (world st) in
    (r, mk_state w (_sentence_model st) (_zsc_pipeline st) (_openai_client st) (stdout st)).

Definition print `{External} (line : string) : M unit :=
  fun st =>
    (Ok tt, mk_state (world st) (_sentence_model st) (_zsc_pipeline st)
                     (_openai_client st) (stdout st ++ [line])).

Notation "x <- m ;; k" := (bind m (fun x => k))
  (at level 100, m at next level, right associativity).
Notation "m ;;; k" := (bind m (fun _ => k))
  (at level 100, right associativity).

Definition gets `{External} {A : Type} (f : state -> A) : M A :=
  fun st => (Ok (f st), st).

Definition modify `{External} (f : state -> state) : M unit :=
  fun st => (Ok tt, f st).

(** [[f(x) for x in l]] where [f] may raise. *)
Fixpoint traverse {A B : Type} (f : A -> result B) (l : list A) : result (list B) :=
  match l with
  | [] => Ok []
  | x :: rest =>
      match f x with
      | Ok y =>
          match traverse f rest with
          | Ok ys => Ok (y :: ys)
          | Raise e => Raise e
          end
      | Raise e => Raise e
      end
  end.

(** [{a: v for a in keys}] *)
Definition dict_comp {V : Type} (keys : list string) (v : V) : gmap string V :=
  foldl (fun d a => <[a := v]> d) ∅ keys.

(** ** The analysis core ([src/sentiment_analyzer.py]) *)

Section Core.
Context `{External}.

Definition _get_sentence_model : M SModel :=
  cached <- gets _sentence_model ;;
  match cached with
  | Some m => ret m
  | None =>
      m <- call (SentenceTransformer SENTENCE_TRANSFORMER_MODEL) ;;
      modify (fun st => mk_state (world st) (Some m) (_zsc_pipeline st)
                                 (_openai_client st) (stdout st)) ;;;
      ret m
  end.

Definition _get_zsc_pipeline : M Pipe :=
  cached <- gets _zsc_pipeline ;;
  match cached with
  | Some p => ret p
  | None =>
      p <- call (pipeline "zero-shot-classification" ZERO_SHOT_MODEL (-1)) ;;
      modify (fun st => mk_state (world st) (_sentence_model st) (Some p)
                                 (_openai_client st) (stdout st)) ;;;
      ret p
  end.

(** [config.get_openai_api_key] *)
Definition get_openai_api_key : M string :=
  api_key <- call (fun w => let '(v, w') := getenv "OPENAI_API_KEY" w in (Ok v, w')) ;;
  match api_key with
  | Some (String c k) => ret (String c k)
  | _ =>
      raise (ValueError
        ("OpenAI API key not found. Please set OPENAI_API_KEY environment variable "
         +:+ "or add it to a .env file in the project root."))
  end.

Definition _get_openai_client : M Client :=
  cached <- gets _openai_client ;;
  match cached with
  | Some c => ret c
  | None =>
      api_key <- get_openai_api_key ;;
      c <- call (OpenAI api_key) ;;
      modify (fun st => mk_state (world st) (_sentence_model st) (_zsc_pipeline st)
                                 (Some c) (stdout st)) ;;;
      ret c
  end.

Definition get_sentences (text : string) : M (list string) :=
  call (sent_tokenize text).

Definition embed_sentences (sentences aspects : list string) : M (Tensor * Tensor) :=
  model <- _get_sentence_model ;;
  sent_emb <- call (encode model sentences) ;;
  asp_emb <- call (encode model aspects) ;;
  ret (sent_emb, asp_emb).

(** The body of [for i, aspect in enumerate(aspects)], with [top_sents]
    the dictionary built so far. *)
Fixpoint top_k_loop (sentences : list string) (sent_emb asp_emb : Tensor) (k : nat)
    (i : nat) (aspects : list string) (top_sents : gmap string (list string))
    : M (gmap string (list string)) :=
  match aspects with
  | [] => ret top_sents
  | aspect :: rest =>
      sims <- call (cos_sim asp_emb i sent_emb) ;;
      topk_idx <- call (topk sims k) ;;
      sel <- lift (traverse (index sentences) topk_idx) ;;
      top_k_loop sentences sent_emb asp_emb k (S i) rest (<[aspect := sel]> top_sents)
  end.

Definition top_k_sentences_per_aspect (sentences : list string) (sent_emb : Tensor)
    (aspects : list string) (asp_emb : Tensor) (k : Z)
    : M (gmap string (list string)) :=
  let num_sentences := Z.of_nat (length sentences) in
  let k := Z.min k num_sentences in
  if (k <=? 0)%Z then ret (dict_comp aspects [])
  else top_k_loop sentences sent_emb asp_emb (Z.to_nat k) 0 aspects ∅.

Definition concat_asp_sentences (top3 : gmap string (list string)) : gmap string string :=
  join " " <$> top3.

(** A row dictionary of the local strategy. *)
Definition nli_row (a label : string) (confidence : Q) : value :=
  VDict [("aspect"%string, VStr a); ("sentiment"%string, VStr label);
         ("confidence"%string, VFloat confidence)].

Definition sentiments : list string := ["positive"; "negative"; "neutral"]%string.

(** The body of the [try] block of [nli_aspect_sentiment] after the
    cleaning (lines 146-155). *)
Definition nli_snippets (cleaned : string) (aspects : list string) : M (gmap string string) :=
  sentences <- get_sentences cleaned ;;
  if (length sentences <=? 3)%nat then ret (dict_comp aspects cleaned)
  else
    embs <- embed_sentences sentences aspects ;;
    let '(sent_emb, asp_emb) := embs in
    top3 <- top_k_sentences_per_aspect sentences sent_emb aspects asp_emb 3 ;;
    ret (concat_asp_sentences top3).

(** Lines 140-160 of [nli_aspect_sentiment]: [cleaned] starts as [review];
    the handler reads whatever [cleaned] holds when the exception arrives.
    [clean_text] is three [re.sub] calls and a [strip] on a [str], which do
    not raise, so by then it holds the cleaned text. *)
Definition nli_preprocess (review : string) (aspects : list string) : M (gmap string string) :=
  let cleaned := clean_text review in
  try_except
    (nli_snippets cleaned aspects)
    (fun e =>
       print ("Preprocessing failed: " +:+ exn_msg e +:+ ". Falling back to full review.") ;;;
       ret (dict_comp aspects cleaned)).

(** One iteration of [for a in aspects] (lines 165-181); [rows] is the list
    appended to. *)
Definition nli_classify (zsc : Pipe) (threshold : Q) (aspect_snippets : gmap string string)
    (review : string) (rows : list value) (a : string) : M (list value) :=
  try_except
    (let focused_text := default review (aspect_snippets !! a) in
     res <- call (zsc_call zsc focused_text sentiments
                    ("The sentiment towards " +:+ a +:+ " is {}.")) ;;
     label <- lift (index (labels res) 0) ;;
     score <- lift (index (scores res) 0) ;;
     let label := if Qltb score threshold then "not_mentioned"%string else label in
     ret (rows ++ [nli_row a label (round3 score)]))
    (fun e =>
       print ("Error processing aspect '" +:+ a +:+ "': " +:+ exn_msg e) ;;;
       ret (rows ++ [nli_row a "error" 0])).

Fixpoint nli_loop (zsc : Pipe) (threshold : Q) (aspect_snippets : gmap string string)
    (review : string) (aspects : list string) (rows : list value) : M (list value) :=
  match aspects with
  | [] => ret rows
  | a :: rest =>
      rows' <- nli_classify zsc threshold aspect_snippets review rows a ;;
      nli_loop zsc threshold aspect_snippets review rest rows'
  end.

Definition nli_aspect_sentiment (review : string) (aspects : option (list string))
    (threshold : option Q) : M (list value) :=
  let aspects := default DEFAULT_ASPECTS aspects in
  let threshold := default DEFAULT_NLI_THRESHOLD threshold in
  aspect_snippets <- nli_preprocess review aspects ;;
  zsc <- _get_zsc_pipeline ;;
  nli_loop zsc threshold aspect_snippets review aspects [].

(** *** Remote strategy *)

Definition nl : string := String (ascii_of_nat 10) "".
Definition dq : string := String (ascii_of_nat 34) "".

(** The f-string of lines 205-213, before [.strip()]. *)
Definition llm_prompt_template (review : string) (aspects : list string) : string :=
  nl +:+ "You are analyzing a MOVIE REVIEW for aspect-based sentiment." +:+ nl
  +:+ "Aspects: " +:+ join ", " aspects +:+ "." +:+ nl
  +:+ "For each aspect, return one of: "
  +:+ dq +:+ "positive" +:+ dq +:+ "," +:+ dq +:+ "negative" +:+ dq +:+ ","
  +:+ dq +:+ "neutral" +:+ dq +:+ "," +:+ dq +:+ "not_mentioned" +:+ dq +:+ "." +:+ nl
  +:+ "Return STRICT JSON ONLY as an array of objects:" +:+ nl
  +:+ "[{" +:+ dq +:+ "aspect" +:+ dq +:+ ":" +:+ dq +:+ "acting" +:+ dq +:+ ","
  +:+ dq +:+ "sentiment" +:+ dq +:+ ":" +:+ dq +:+ "positive" +:+ dq +:+ "}, ...]" +:+ nl
  +:+ "Review:" +:+ nl
  +:+ review +:+ nl.

(** [c.lower()] on the letters the pattern names. *)
Definition to_lower (c : ascii) : ascii :=
  let n := nat_of_ascii c in
  if ((65 <=? n) && (n <=? 90))%nat then ascii_of_nat (n + 32) else c.

(** A literal lower-case prefix under [re.I]. *)
Fixpoint strip_prefix_ci (p s : list ascii) : option (list ascii) :=
  match p, s with
  | [], _ => Some s
  | a :: p', b :: s' => if Ascii.eqb a (to_lower b) then strip_prefix_ci p' s' else None
  | _ :: _, [] => None
  end.

Definition fence : list ascii := chars "```".

(** First alternative of the fence pattern, [^```json\s*] under [re.I];
    it is tried at position 0 only. *)
Definition match_open_fence (s : list ascii) : option (list ascii) :=
  match strip_prefix fence s with
  | Some s1 =>
      match strip_prefix_ci (chars "json") s1 with
      | Some s2 => Some (drop_spaces s2)
      | None => None
      end
  | None => None
  end.

(** [$] without [re.M]: the end of the string, or just before a newline
    that ends the string. *)
Definition at_end (s : list ascii) : bool :=
  match s with
  | [] => true
  | [c] => Ascii.eqb c (ascii_of_nat 10)
  | _ => false
  end.

(** Second alternative, [\s*```$]. *)
Definition match_close_fence (s : list ascii) : option (list ascii) :=
  match strip_prefix fence (drop_spaces s) with
  | Some r => if at_end r then Some r else None
  | None => None
  end.

(** [re.sub(r"^```json\s*|\s*```$", "", txt, flags=re.I)] *)
Definition sub_fences (txt : list ascii) : list ascii :=
  match match_open_fence txt with
  | Some rest => re_sub match_close_fence [] 0 rest
  | None => re_sub match_close_fence [] 0 txt
  end.

(** [s.find(c)] and [s.rfind(c)] for a one-character needle; [None] is -1. *)
Fixpoint find (c : ascii) (s : list ascii) : option nat :=
  match s with
  | [] => None
  | d :: s' => if Ascii.eqb d c then Some 0%nat else S <$> find c s'
  end.

Fixpoint rfind (c : ascii) (s : list ascii) : option nat :=
  match s with
  | [] => None
  | d :: s' =>
      match rfind c s' with
      | Some i => Some (S i)
      | None => if Ascii.eqb d c then Some 0%nat else None
      end
  end.

(** [s[start:stop]] for non-negative bounds. *)
Definition slice (s : list ascii) (start stop : nat) : list ascii :=
  take (stop - start) (drop start s).

(** Lines 230-233 of [llm_aspect_sentiment]: the fences stripped, then the
    text from the first [[] to the last []] when both are there. *)
Definition llm_clean (txt : list ascii) : list ascii :=
  let txt_clean := strip (sub_fences txt) in
  let start := find "["%char txt_clean in
  let end_ := rfind "]"%char txt_clean in
  match start, end_ with
  | Some i, Some j => slice txt_clean i (j + 1)
  | _, _ => txt_clean
  end.

Definition parse_failure (txt : string) : exn :=
  ValueError ("Failed to parse OpenAI response as JSON. Response was: "
              +:+ text (take 200 (chars txt)) +:+ "...").

(** Lines 224-239 of [llm_aspect_sentiment]: the parse of the trimmed
    response [txt]. *)
Definition llm_parse (txt : string) : result value :=
  match json_loads txt with
  | Ok v => Ok v
  | Raise e =>
      if isinstance e "JSONDecodeError" then
        match json_loads (text (llm_clean (chars txt))) with
        | Ok v => Ok v
        | Raise e2 =>
            if isinstance e2 "JSONDecodeError" || isinstance e2 "ValueError"
            then Raise (parse_failure txt)
            else Raise e2
        end
      else Raise e
  end.

Definition llm_aspect_sentiment (review : string) (aspects : option (list string))
    (max_tokens : option Z) : M value :=
  let aspects := default DEFAULT_ASPECTS aspects in
  let max_tokens := default OPENAI_MAX_TOKENS max_tokens in
  client <- _get_openai_client ;;
  let prompt := text (strip (chars (llm_prompt_template review aspects))) in
  content <- call (chat_create client OPENAI_MODEL prompt 0 max_tokens) ;;
  match content with
  | None => raise (AttributeError "'NoneType' object has no attribute 'strip'")
  | Some c =>
      let txt := text (strip (chars c)) in
      lift (llm_parse txt)
  end.

(** *** Orchestrator *)

(** A row of the two-column result table, and the table. *)
Record row : Type := mk_row {
  aspect : value;
  sentiment : value
}.

Definition DataFrame : Type := list row.

(** [for d in data] *)
Definition iterate (data : value) : result (list value) :=
  match data with
  | VList l => Ok l
  | VDict items => Ok (map (fun kv => VStr (fst kv)) items)
  | VStr s => Ok (map (fun c => VStr (String c "")) (chars s))
  | v => Raise (TypeError ("'" +:+ type_name v +:+ "' object is not iterable"))
  end.

(** [d.get(key, "")] *)
Definition get (d : value) (key : string) : result value :=
  match d with
  | VDict items => Ok (dict_get items key (VStr ""))
  | v => Raise (AttributeError ("'" +:+ type_name v +:+ "' object has no attribute 'get'"))
  end.

Definition normalize_row (d : value) : result row :=
  match get d "aspect" with
  | Ok a =>
      match get d "sentiment" with
      | Ok s => Ok (mk_row a s)
      | Raise e => Raise e
      end
  | Raise e => Raise e
  end.

Definition LLM_METHOD : string := "LLM (OpenAI)".

(** The [try] block of [analyze] (lines 255-273). *)
Definition analyze_body (review : option string) (aspects : option (list string))
    (method : string) : M DataFrame :=
  match review with
  | None | Some EmptyString =>
      ret [mk_row (VStr "") (VStr "(no review)")]
  | Some review =>
      let aspects :=
        match aspects with
        | None | Some [] => DEFAULT_ASPECTS
        | Some l => l
        end in
      data <- (if String.eqb method LLM_METHOD
               then llm_aspect_sentiment review (Some aspects) None
               else rows <- nli_aspect_sentiment review (Some aspects) None ;; ret (VList rows)) ;;
      items <- lift (iterate data) ;;
      lift (traverse normalize_row items)
  end.

(** The table built by the [except Exception as e] clause. *)
Definition error_table (e : exn) : DataFrame :=
  [mk_row (VStr "(error)") (VStr (exn_name e +:+ ": " +:+ exn_msg e))].

(** [analyze]: its result is a table, whatever happens inside. *)
Definition analyze (review : option string) (aspects : option (list string))
    (method : string) (st : state) : DataFrame * state :=
  match analyze_body review aspects method st with
  | (Ok df, st') => (df, st')
  | (Raise e, st') => (error_table e, st')
  end.

End Core.

(** ** The contract of the top-k primitive, and the ranking of the specification *)

Definition score_at (sims : list Q) (j : nat) : Q := default 0%Q (sims !! j).

Definition descending (qs : list Q) : Prop :=
  forall i j x y, (i <= j)%nat -> qs !! i = Some x -> qs !! j = Some y -> (y <= x)%Q.

(** What [torch.topk(sims, k)] documents for its default arguments: [k]
    distinct positions of [sims], holding the [k] largest scores, in
    non-increasing order of score.  It says nothing about equal scores. *)
Definition topk_contract `{External} : Prop :=
  forall sims k w idxs w',
    topk sims k w = (Ok idxs, w') ->
    length idxs = k /\ NoDup idxs /\
    Forall (fun j => (j < length sims)%nat) idxs /\
    descending (score_at sims <$> idxs) /\
    (forall i j, (i < length sims)%nat -> i ∉ idxs -> j ∈ idxs ->
                 (score_at sims i <= score_at sims j)%Q).

(** Insertion of a scored position into a list sorted by [before]. *)
Fixpoint insert_by (before : Q -> Q -> bool) (x : nat * Q) (l : list (nat * Q))
    : list (nat * Q) :=
  match l with
  | [] => [x]
  | y :: l' => if before (snd x) (snd y) then x :: y :: l' else y :: insert_by before x l'
  end.

Definition sort_by (before : Q -> Q -> bool) (l : list (nat * Q)) : list (nat * Q) :=
  foldr (insert_by before) [] l.

(** [enumerate(sims)] *)
Definition indexed (sims : list Q) : list (nat * Q) := zip (seq 0 (length sims)) sims.

(** An earlier sentence goes before a later one of equal score ... *)
Definition first_wins (x y : Q) : bool := Qle_bool y x.
(** ... or after it. *)
Definition last_wins (x y : Q) : bool := Qltb y x.

Definition rank_by (before : Q -> Q -> bool) (sims : list Q) (k : nat) : list nat :=
  take k (fst <$> sort_by before (indexed sims)).

(** The ranking as the specification words it: descending similarity, ties
    in original sentence order, the first [k]. *)
Definition spec_rank (sims : list Q) (k : nat) : list nat := rank_by first_wins sims k.

Definition spec_snippet (sentences : list string) (sims : list Q) (k : nat) : string :=
  join " " ((fun j => default ""%string (sentences !! j)) <$> spec_rank sims k).

(** ** The contract of the JSON decoder *)

(** JSON whitespace *)
Definition is_json_ws (c : ascii) : bool :=
  let n := nat_of_ascii c in
  (n =? 32)%nat || (n =? 9)%nat || (n =? 10)%nat || (n =? 13)%nat.

(** Two facts about [json.loads]: a text that starts with a backtick is
    rejected with [JSONDecodeError]; a text decoded to an array is an array
    literal between JSON whitespace, and the literal alone decodes to the
    same array. *)
Definition json_contract `{External} : Prop :=
  (forall s, exists e,
      json_loads (text ("`"%char :: s)) = Raise e /\ isinstance e "JSONDecodeError" = true) /\
  (forall s l,
      json_loads (text s) = Ok (VList l) ->
      exists a mid b,
        s = a ++ "["%char :: mid ++ "]"%char :: b /\
        forallb is_json_ws a = true /\ forallb is_json_ws b = true /\
        json_loads (text ("["%char :: mid ++ ["]"%char])) = Ok (VList l)).

(** A response that wraps [J] in code fences. *)
Definition fenced (tag ws1 J ws2 : list ascii) : list ascii :=
  fence ++ tag ++ ws1 ++ J ++ ws2 ++ fence.

(** ** Inputs with line-break markup only *)

(** A line-break tag, as [<br\s*/?>] reads it. *)
Definition br_tag (ws : list ascii) (slash : bool) : list ascii :=
  chars "<br" ++ ws ++ (if slash then chars "/" else []) ++ chars ">".

(** Texts whose only markup is line-break tags: every [<] opens one. *)
Inductive br_markup_only : list ascii -> Prop :=
  | bmo_nil : br_markup_only []
  | bmo_char c s :
      c <> "<"%char -> br_markup_only s -> br_markup_only (c :: s)
  | bmo_tag ws slash s :
      forallb is_space ws = true -> br_markup_only s ->
      br_markup_only (br_tag ws slash ++ s).

(** ** Concrete collaborators

    Small deterministic stand-ins, used to run the definitions. *)

Definition RuntimeError (msg : string) : exn := mk_exn "RuntimeError" [] msg.
Definition LookupError (msg : string) : exn := mk_exn "LookupError" [] msg.
Definition OSError (msg : string) : exn := mk_exn "OSError" [] msg.

Definition mk_env
    (tokenize : string -> result (list string))
    (similarity : string -> list string -> list Q)
    (before : Q -> Q -> bool)
    (load : result unit)
    (classify : string -> string -> result zsc_output)
    (key : option string)
    (reply : result (option string))
    (loads : string -> result value) : External := {|
  W := unit;
  SModel := unit;
  Tensor := list string;
  Pipe := unit;
  Client := unit;
  sent_tokenize := fun t w => (tokenize t, w);
  SentenceTransformer := fun _ w => (Ok tt, w);
  encode := fun _ texts w => (Ok texts, w);
  cos_sim := fun asp_emb i sent_emb w =>
    (match asp_emb !! i with
     | Some a => Ok (similarity a sent_emb)
     | None => Raise (IndexError "index out of range")
     end, w);
  topk := fun sims k w =>
    (if (k <=? length sims)%nat then Ok (rank_by before sims k)
     else Raise (RuntimeError "selected index k out of range"), w);
  pipeline := fun _ _ _ w => (load, w);
  zsc_call := fun _ t _ template w => (classify t template, w);
  getenv := fun _ w => (key, w);
  OpenAI := fun _ w => (Ok tt, w);
  chat_create := fun _ _ _ _ _ w => (reply, w);
  json_loads := loads
|}.

(** A toy tokenizer: a sentence ends at a full stop that is followed by
    whitespace or by the end of the text. *)
Fixpoint split_sentences (cur : list ascii) (s : list ascii) : list string :=
  match s with
  | [] => match cur with [] => [] | _ => [text (rev cur)] end
  | c :: s' =>
      if Ascii.eqb c "."%char && match s' with d :: _ => is_space d | [] => true end
      then text (rev (c :: cur)) :: split_sentences [] s'
      else match cur with
           | [] => if is_space c then split_sentences [] s' else split_sentences [c] s'
           | _ => split_sentences (c :: cur) s'
           end
  end.

Definition toy_tokenize (t : string) : result (list string) :=
  Ok (split_sentences [] (chars t)).

(** A toy similarity: the number of characters of the aspect name that
    occur in the sentence. *)
Definition toy_similarity (a : string) (sents : list string) : list Q :=
  (fun s => inject_Z (Z.of_nat (length
     (filter (fun c => existsb (Ascii.eqb c) (chars s) = true) (chars a))))) <$> sents.

(** Every sentence is as close to every aspect as every other. *)
Definition flat_similarity (a : string) (sents : list string) : list Q :=
  (fun _ => 1%Q) <$> sents.

(** A toy classifier: it fails on the aspect [pacing], is unsure about
    [visuals] and confident about everything else. *)
Definition toy_classify (t tpl : string) : result zsc_output :=
  if String.eqb tpl "The sentiment towards pacing is {}." then
    Raise (RuntimeError "out of memory")
  else if String.eqb tpl "The sentiment towards visuals is {}." then
    Ok (mk_zsc_output ["neutral"; "positive"; "negative"]%string [2 # 5; 7 # 20; 1 # 4])
  else
    Ok (mk_zsc_output ["positive"; "negative"; "neutral"]%string [9 # 10; 3 # 50; 1 # 25]).

(** A toy decoder: it knows the empty array and rejects everything else. *)
Definition toy_loads (s : string) : result value :=
  if String.eqb s "[]" then Ok (VList [])
  else Raise (JSONDecodeError "Expecting value: line 1 column 1 (char 0)").

Definition toy_reply : string := "```json" +:+ nl +:+ "[]" +:+ nl +:+ "```".

(** Everything works. *)
Definition demo_env : External :=
  mk_env toy_tokenize toy_similarity first_wins (Ok tt) toy_classify
         (Some "sk-demo"%string) (Ok (Some toy_reply)) toy_loads.

(** The classifier model cannot be loaded. *)
Definition no_pipeline_env : External :=
  mk_env toy_tokenize toy_similarity first_wins
         (Raise (OSError "typeform/distilbert-base-uncased-mnli is not a local folder"))
         toy_classify (Some "sk-demo"%string) (Ok (Some toy_reply)) toy_loads.

(** The sentence tokenizer's data is missing. *)
Definition no_tokenizer_env : External :=
  mk_env (fun _ => Raise (LookupError "Resource punkt not found."))
         toy_similarity first_wins (Ok tt) toy_classify
         (Some "sk-demo"%string) (Ok (Some toy_reply)) toy_loads.

(** All sentences score the same, and the top-k primitive ranks a later
    sentence before an earlier one of equal score. *)
Definition tie_env : External :=
  mk_env toy_tokenize flat_similarity last_wins (Ok tt) toy_classify
         (Some "sk-demo"%string) (Ok (Some toy_reply)) toy_loads.

(** The state of a process that has loaded nothing and printed nothing. *)
Definition fresh (E : External) (w : @W E) : @state E :=
  @mk_state E w None None None [].

Definition four_sentences : list string :=
  ["The acting is superb."; "The pacing drags."; "The plot is thin."; "The visuals shine."]%string.

(** ** Notions used in the statements *)

Definition no_lt (s : list ascii) : Prop := Forall (fun c => c <> "<"%char) s.

(** Whether the first character of [s] is in the class [p]. *)
Definition next_is (p : ascii -> bool) (s : list ascii) : bool :=
  match s with d :: _ => p d | [] => false end.

(** No sentence-ending mark is directly followed by a letter. *)
Fixpoint punct_ok (s : list ascii) : Prop :=
  match s with
  | [] => True
  | c :: s' => is_punct c && next_is is_letter s' = false /\ punct_ok s'
  end.

(** Every whitespace character is a single space, and no two are adjacent. *)
Fixpoint ws_norm (s : list ascii) : Prop :=
  match s with
  | [] => True
  | c :: s' =>
      (is_space c = true -> c = " "%char /\ next_is is_space s' = false) /\ ws_norm s'
  end.

(** The text handed to the classifier for aspect [a]. *)
Definition focused (aspect_snippets : gmap string string) (review a : string) : string :=
  default review (aspect_snippets !! a).

Definition template (a : string) : string := "The sentiment towards " +:+ a +:+ " is {}.".

Definition row_for (a : string) (r : value) : Prop :=
  exists label conf, r = nli_row a label conf.

Definition fallback_line (e : exn) : string :=
  "Preprocessing failed: " +:+ exn_msg e +:+ ". Falling back to full review.".

Definition LOCAL_METHOD : string := "Zero-shot NLI (local)".

(** A comparison that orders by score, whatever it does with equal scores. *)
Definition orders_by_score (before : Q -> Q -> bool) : Prop :=
  forall x y, (before x y = true -> (y <= x)%Q) /\ (before x y = false -> (x <= y)%Q).

Definition score_ge (x y : nat * Q) : Prop := (snd y <= snd x)%Q.

(** [[sentences[j] for j in topk_idx]], when no index is out of range. *)
Definition pick (sentences : list string) (idxs : list nat) : list string :=
  (fun j => default ""%string (sentences !! j)) <$> idxs.

(** The positions of [sims] with their scores, sorted by [before]. *)
Definition sorted_scores (before : Q -> Q -> bool) (sims : list Q) : list (nat * Q) :=
  sort_by before (indexed sims).

Section Notions.
Context `{External}.

Definition printed (st : state) (line : string) : state :=
  mk_state (world st) (_sentence_model st) (_zsc_pipeline st) (_openai_client st)
           (stdout st ++ [line]).

Definition with_world (st : state) (w : W) : state :=
  mk_state w (_sentence_model st) (_zsc_pipeline st) (_openai_client st) (stdout st).

(** What one round of the loop stored for an aspect: the scores it got, the
    indices the top-k primitive returned for them, and the sentences at
    those indices in that order. *)
Definition ranked_for (sentences : list string) (sent_emb asp_emb : Tensor) (k i : nat)
    (sel : list string) : Prop :=
  exists w sims w' idxs w'',
    cos_sim asp_emb i sent_emb w = (Ok sims, w') /\
    topk sims k w' = (Ok idxs, w'') /\
    sel = pick sentences idxs /\
    Forall (fun j => (j < length sentences)%nat) idxs.

End Notions.

(** ** Further notions *)

(** The characters of a text that are not whitespace. *)
Fixpoint ink (s : list ascii) : list ascii :=
  match s with
  | [] => []
  | c :: s' => if is_space c then ink s' else c :: ink s'
  end.

(** Texts made of line-break tags and whitespace only. *)
Inductive br_space_only : list ascii -> Prop :=
  | bso_nil : br_space_only []
  | bso_space c s :
      is_space c = true -> br_space_only s -> br_space_only (c :: s)
  | bso_tag ws slash s :
      forallb is_space ws = true -> br_space_only s ->
      br_space_only (br_tag ws slash ++ s).

(** A text neither starts nor ends with whitespace. *)
Definition trimmed (s : list ascii) : Prop :=
  next_is is_space s = false /\ next_is is_space (rev s) = false.

(** Every value the [sentiment] field of a local row can take. *)
Definition SENTIMENT_VALUES : list string :=
  sentiments ++ ["not_mentioned"; "error"]%string.

Section Further_notions.
Context `{External}.

(** A classifier that ranks the candidate labels it is given: called with
    the three sentiment labels, the label it puts first is one of them. *)
Definition classifier_answers_candidates : Prop :=
  forall zsc t tpl w res w',
    zsc_call zsc t sentiments tpl w = (Ok res, w') ->
    forall l, head (labels res) = Some l -> l ∈ sentiments.

(** [m] keeps the relation [P] between the state it starts in and the state
    it leaves, whether it returns or raises. *)
Definition preserves {A : Type} (P : state -> state -> Prop) (m : M A) : Prop :=
  forall st r st', m st = (r, st') -> P st st'.

(** The remote client is the same object (or still absent). *)
Definition same_client (st st' : state) : Prop :=
  _openai_client st' = _openai_client st.

(** The two local models are the same objects (or still absent), and
    nothing was printed. *)
Definition same_local_models (st st' : state) : Prop :=
  _sentence_model st' = _sentence_model st /\
  _zsc_pipeline st' = _zsc_pipeline st /\
  stdout st' = stdout st.

(** The classifier pipeline is the same object (or still absent). *)
Definition same_pipeline (st st' : state) : Prop :=
  _zsc_pipeline st' = _zsc_pipeline st.

End Further_notions.

(** A review of four sentences. *)
Definition long_review : string :=
  "The acting is superb. The pacing drags. The plot is thin. The visuals shine.".

(** The aspect list [analyze] works with: the default one when none, or an
    empty one, is given. *)
Definition effective_aspects (aspects : option (list string)) : list string :=
  match aspects with
  | None | Some [] => DEFAULT_ASPECTS
  | Some l => l
  end.

(** The row [analyze] builds from the items of a [dict]. *)
Definition row_of_items (items : list (string * value)) : row :=
  mk_row (dict_get items "aspect" (VStr "")) (dict_get items "sentiment" (VStr "")).

Definition is_dict (v : value) : bool :=
  match v with VDict _ => true | _ => false end.

Definition MISSING_KEY_MESSAGE : string :=
  "OpenAI API key not found. Please set OPENAI_API_KEY environment variable "
  +:+ "or add it to a .env file in the project root.".

(** A decoder that knows the texts of a table and rejects everything else. *)
Fixpoint table_loads (table : list (string * value)) (s : string) : result value :=
  match table with
  | [] => Raise (JSONDecodeError "Expecting value: line 1 column 1 (char 0)")
  | (t, v) :: rest => if String.eqb s t then Ok v else table_loads rest s
  end.

(** A reply with two objects: one with an extra key, one without a
    sentiment. *)
Definition objects_reply : string :=
  "[{" +:+ dq +:+ "aspect" +:+ dq +:+ ":" +:+ dq +:+ "acting" +:+ dq +:+ ","
  +:+ dq +:+ "sentiment" +:+ dq +:+ ":" +:+ dq +:+ "positive" +:+ dq +:+ ","
  +:+ dq +:+ "why" +:+ dq +:+ ":" +:+ dq +:+ "superb" +:+ dq +:+ "},{"
  +:+ dq +:+ "aspect" +:+ dq +:+ ":" +:+ dq +:+ "music" +:+ dq +:+ "}]".

Definition objects_payload : list (list (string * value)) :=
  [[("aspect"%string, VStr "acting"); ("sentiment"%string, VStr "positive");
    ("why"%string, VStr "superb")];
   [("aspect"%string, VStr "music")]].

(** The remote service answers with [objects_reply]. *)
Definition objects_env : External :=
  mk_env toy_tokenize toy_similarity first_wins (Ok tt) toy_classify
         (Some "sk-demo"%string) (Ok (Some objects_reply))
         (table_loads [(objects_reply, VList (VDict <$> objects_payload))]).

(** The remote service answers with an array that holds a number. *)
Definition number_env : External :=
  mk_env toy_tokenize toy_similarity first_wins (Ok tt) toy_classify
         (Some "sk-demo"%string) (Ok (Some "[1]"%string))
         (table_loads [("[1]"%string, VList [VInt 1])]).

(** The credential is not set. *)
Definition no_key_env : External :=
  mk_env toy_tokenize toy_similarity first_wins (Ok tt) toy_classify
         None (Ok (Some toy_reply)) toy_loads.

(** ** The command-line runner ([src/app/main.py]) *)

(** [str(n)] for an [int]. *)
Definition str_int (n : Z) : string := NilZero.string_of_int (Z.to_int n).

(** [c * n] for a one-character string [c]. *)
Definition repeat_char (c : ascii) (n : nat) : string := text (replicate n c).

(** [s.endswith(suffix)] *)
Definition ends_with (suffix s : string) : bool :=
  match strip_prefix (rev (chars suffix)) (rev (chars s)) with
  | Some _ => true
  | None => false
  end.

(** [sub in s], on characters ... *)
Fixpoint occurs_in (sub s : list ascii) : bool :=
  match strip_prefix sub s with
  | Some _ => true
  | None => match s with
            | [] => false
            | _ :: s' => occurs_in sub s'
            end
  end.

(** ... and on strings. *)
Definition contains (sub s : string) : bool := occurs_in (chars sub) (chars s).

(** How [main] ends when it does not raise: it returns, or [sys.exit(code)]
    is called. *)
Inductive exit_status : Type :=
  | Returned
  | Exited (code : Z).

(** The namespace [parser.parse_args()] returns. *)
Record cli_args : Type := mk_cli_args {
  arg_web : bool;
  arg_review : option string;
  arg_file : option string;
  arg_dataset : option string;
  arg_dataset_kaggle : bool;
  arg_aspects : list string;
  arg_method : string;
  arg_test : option Z
}.

(** Truth of an optional string and of an optional integer in an [if]. *)
Definition truthy_str (o : option string) : bool :=
  match o with
  | Some (String _ _) => true
  | _ => false
  end.

Definition truthy_int (o : option Z) : bool :=
  match o with
  | Some z => negb (z =? 0)%Z
  | None => false
  end.

(** What the runner calls besides the analysis core. *)
Class CliExternal `{External} : Type := {
  (** a [pandas.DataFrame] read from a CSV file *)
  Dataset : Type;
  (** a [gr.Blocks] *)
  Demo : Type;
  (** whether [import gradio] and [import kagglehub] succeeded *)
  gradio_installed : bool;
  kagglehub_installed : bool;
  (** the body of [with gr.Blocks(...) as demo] *)
  build_interface : W -> result Demo * W;
  (** [demo.launch(share=False)] *)
  launch : Demo -> W -> result unit * W;
  (** [open(path, 'r', encoding='utf-8').read()] *)
  read_file : string -> W -> result string * W;
  (** [os.path.exists(path)] *)
  path_exists : string -> W -> bool * W;
  (** [pd.read_csv(path, encoding='latin-1')] *)
  read_csv : string -> W -> result Dataset * W;
  (** [kagglehub.dataset_download(name)] *)
  dataset_download : string -> W -> result string * W;
  (** [os.walk(path)], as the list of its [(root, files)] *)
  os_walk : string -> W -> result (list (string * list string)) * W;
  (** [os.path.join(root, file)] *)
  path_join : string -> string -> string;
  (** [df['review'].head(n).tolist()] *)
  reviews_head : Dataset -> Z -> result (list string);
  (** [df['review'].iloc[0]] *)
  first_review : Dataset -> result string;
  (** [df.to_string(index=False)] *)
  to_string : DataFrame -> string;
  (** what [parser.print_help()] writes *)
  help_text : string
}.

Section Cli.
Context `{External} `{!CliExternal}.

Definition load_dataset_manual (file_path : string) : M (option Dataset) :=
  try_except
    (there <- call (fun w => let '(b, w') := path_exists file_path w in (Ok b, w')) ;;
     if negb there then
       print ("Error: File not found: " +:+ file_path) ;;;
       ret None
     else
       print ("Loading dataset from: " +:+ file_path) ;;;
       df <- call (read_csv file_path) ;;
       ret (Some df))
    (fun e =>
       print ("Error loading dataset: " +:+ exn_msg e) ;;;
       ret None).

(** The inner loop of [load_dataset_kaggle]: the first file of a directory
    that ends in [.csv] and holds [IMDB], joined to the directory. *)
Fixpoint find_in_files (root : string) (files : list string) : option string :=
  match files with
  | [] => None
  | file :: rest =>
      if ends_with ".csv" file && contains "IMDB" file
      then Some (path_join root file)
      else find_in_files root rest
  end.

(** The outer loop, with [csv_file] as it stands; it stops once [csv_file]
    is a non-empty string. *)
Fixpoint find_csv (walk : list (string * list string)) (csv_file : option string)
    : option string :=
  match walk with
  | [] => csv_file
  | (root, files) :: rest =>
      let csv_file := match find_in_files root files with
                      | Some p => Some p
                      | None => csv_file
                      end in
      if truthy_str csv_file then csv_file else find_csv rest csv_file
  end.

Definition KAGGLE_DATASET : string := "lakshmi25npathi/imdb-dataset-of-50k-movie-reviews".

Definition load_dataset_kaggle (dataset_name : string) : M (option Dataset) :=
  if negb kagglehub_installed then
    print "Warning: kagglehub not installed. Install with: pip install kagglehub" ;;;
    ret None
  else
    try_except
      (print ("Downloading dataset from Kaggle: " +:+ dataset_name) ;;;
       path <- call (dataset_download dataset_name) ;;
       print ("Dataset downloaded to: " +:+ path) ;;;
       walk <- call (os_walk path) ;;
       let csv_file := find_csv walk None in
       if truthy_str csv_file then
         print ("Loading CSV file: " +:+ default ""%string csv_file) ;;;
         df <- call (read_csv (default ""%string csv_file)) ;;
         ret (Some df)
       else
         print "Warning: Could not find IMDB Dataset.csv in downloaded files" ;;;
         ret None)
      (fun e =>
         print ("Error downloading from Kaggle: " +:+ exn_msg e) ;;;
         ret None).

Definition analyze_review_cli (review : string) (aspects : list string) (method : string)
    : M unit :=
  print (nl +:+ "Analyzing review using " +:+ method +:+ "...") ;;;
  print ("Aspects: " +:+ join ", " aspects) ;;;
  print (nl +:+ "Review:" +:+ nl +:+ review +:+ nl) ;;;
  print (repeat_char "-" 80) ;;;
  df <- (fun st => let '(df, st') := analyze (Some review) (Some aspects) method st in
                   (Ok df, st')) ;;
  print (nl +:+ "Results:") ;;;
  print (to_string df) ;;;
  print "".

Definition ImportError (msg : string) : exn := mk_exn "ImportError" [] msg.

Definition create_gradio_interface : M Demo :=
  if negb gradio_installed then
    raise (ImportError "Gradio is not installed. Install it with: pip install gradio")
  else call build_interface.

(** The loop [for i, review in enumerate(test_reviews, 1)] of [main]. *)
Fixpoint test_loop (num_reviews : Z) (aspects : list string) (method : string)
    (i : Z) (test_reviews : list string) : M unit :=
  match test_reviews with
  | [] => ret tt
  | review :: rest =>
      print (nl +:+ repeat_char "=" 80) ;;;
      print ("Review " +:+ str_int i +:+ "/" +:+ str_int num_reviews) ;;;
      print (repeat_char "=" 80) ;;;
      analyze_review_cli review aspects method ;;;
      test_loop num_reviews aspects method (i + 1)%Z rest
  end.

(** The last branch of [main]: no input was given. *)
Definition show_help : M unit :=
  print help_text ;;;
  print (nl +:+ "Examples:") ;;;
  print "  # Launch web interface:" ;;;
  print "  python main.py --web" ;;;
  print (nl +:+ "  # Analyze a review:") ;;;
  print "  python main.py --review 'This movie was great!'" ;;;
  print (nl +:+ "  # Test with dataset:") ;;;
  print "  python main.py --dataset-kaggle --test 5".

(** Lines 205-247 of [main]: where the review comes from.  The result is
    [review_text], or how [main] ended if it ended in there. *)
Definition review_source (args : cli_args) : M (option string + exit_status) :=
  if truthy_str (arg_review args) then ret (inl (arg_review args))
  else if truthy_str (arg_file args) then
    try_except
      (content <- call (read_file (default ""%string (arg_file args))) ;;
       ret (inl (Some content)))
      (fun e =>
         print ("Error reading file: " +:+ exn_msg e) ;;;
         ret (inr (Exited 1)))
  else if truthy_str (arg_dataset args) || arg_dataset_kaggle args || truthy_int (arg_test args)
  then
    df <- (if truthy_str (arg_dataset args)
           then load_dataset_manual (default ""%string (arg_dataset args))
           else if arg_dataset_kaggle args then load_dataset_kaggle KAGGLE_DATASET
           else ret None) ;;
    match df with
    | None =>
        if truthy_int (arg_test args) then
          print "Error: Could not load dataset. Use --dataset or --dataset-kaggle" ;;;
          ret (inr (Exited 1))
        else ret (inl None)
    | Some df =>
        if truthy_int (arg_test args) then
          let num_reviews := default 0%Z (arg_test args) in
          test_reviews <- lift (reviews_head df num_reviews) ;;
          print (nl +:+ "Testing with " +:+ str_int num_reviews
                 +:+ " reviews from dataset..." +:+ nl) ;;;
          test_loop num_reviews (arg_aspects args) (arg_method args) 1 test_reviews ;;;
          ret (inr Returned)
        else
          review_text <- lift (first_review df) ;;
          print "Using first review from dataset (use --test N for multiple reviews)" ;;;
          ret (inl (Some review_text))
    end
  else ret (inl None).

(** [main], after [parser.parse_args()]. *)
Definition main (args : cli_args) : M exit_status :=
  if arg_web args then
    if negb gradio_installed then
      print "Error: Gradio is not installed. Install it with: pip install gradio" ;;;
      ret (Exited 1)
    else
      print "Launching Gradio web interface..." ;;;
      demo <- create_gradio_interface ;;
      call (launch demo) ;;;
      ret Returned
  else
    source <- review_source args ;;
    match source with
    | inr status => ret status
    | inl review_text =>
        if truthy_str review_text then
          analyze_review_cli (default ""%string review_text) (arg_aspects args)
            (arg_method args) ;;;
          ret Returned
        else
          show_help ;;;
          ret Returned
    end.

End Cli.

(** The dataset [main] asks for, if any (lines 218-222). *)
Definition requested_dataset `{External} `{!CliExternal} (args : cli_args)
    : M (option Dataset) :=
  if truthy_str (arg_dataset args)
  then load_dataset_manual (default ""%string (arg_dataset args))
  else if arg_dataset_kaggle args then load_dataset_kaggle KAGGLE_DATASET
  else ret None.

(** The arguments with one option replaced. *)
Definition with_review (args : cli_args) (review : option string) : cli_args :=
  mk_cli_args (arg_web args) review (arg_file args) (arg_dataset args)
              (arg_dataset_kaggle args) (arg_aspects args) (arg_method args) (arg_test args).

Definition with_file (args : cli_args) (file : option string) : cli_args :=
  mk_cli_args (arg_web args) (arg_review args) file (arg_dataset args)
              (arg_dataset_kaggle args) (arg_aspects args) (arg_method args) (arg_test args).

Definition with_dataset (args : cli_args) (dataset : option string) : cli_args :=
  mk_cli_args (arg_web args) (arg_review args) (arg_file args) dataset
              (arg_dataset_kaggle args) (arg_aspects args) (arg_method args) (arg_test args).

Definition with_test (args : cli_args) (test : option Z) : cli_args :=
  mk_cli_args (arg_web args) (arg_review args) (arg_file args) (arg_dataset args)
              (arg_dataset_kaggle args) (arg_aspects args) (arg_method args) test.

(** A file that ends in [.csv] and holds [IMDB]. *)
Definition is_imdb_csv (file : string) : bool :=
  ends_with ".csv" file && contains "IMDB" file.

Definition FileNotFoundError (msg : string) : exn :=
  mk_exn "FileNotFoundError" ["OSError"%string] msg.

(** A small installation: gradio is there, kagglehub is not; one dataset
    and two text files exist. *)
Definition demo_cli : @CliExternal demo_env := {|
  Dataset := list string;
  Demo := unit;
  gradio_installed := true;
  kagglehub_installed := false;
  build_interface := fun w => (Ok tt, w);
  launch := fun _ w => (Ok tt, w);
  read_file := fun path w =>
    (if String.eqb path "review.txt" then Ok "Good."%string
     else if String.eqb path "empty.txt" then Ok ""%string
     else Raise (FileNotFoundError ("No such file or directory: " +:+ path)), w);
  path_exists := fun path w => (String.eqb path "imdb.csv", w);
  read_csv := fun _ w => (Ok ["Good."; "Bad."; "Fine."]%string, w);
  dataset_download := fun _ w => (Raise (OSError "no network"), w);
  os_walk := fun _ w => (Ok [], w);
  path_join := fun root file => root +:+ "/" +:+ file;
  reviews_head := fun df n => Ok (take (Z.to_nat n) df);
  first_review := fun df => index df 0;
  to_string := fun df => str_int (Z.of_nat (length df)) +:+ " rows";
  help_text := "usage: main.py [-h] [--web] [--review REVIEW]"
|}.

Definition no_args : cli_args :=
  mk_cli_args false None None None false DEFAULT_ASPECTS LLM_METHOD None.

(** * Properties *)

(** ** Text Normalizer *)

Lemma re_sub_skip m repl l1 l2 :
  re_sub m repl (length l1) (l1 ++ l2) = re_sub m repl 0 l2.
Proof. induction l1 as [|c l1 IH]; [reflexivity | exact IH]. Qed.

Lemma re_sub_skip_all m repl k s : (length s <= k)%nat -> re_sub m repl k s = [].
Proof.
  revert k. induction s as [|c s IH]; intros k Hk; [reflexivity|].
  destruct k as [|k]; simpl in *; [lia|]. apply IH. lia.
Qed.

Lemma drop_spaces_app ws s :
  forallb is_space ws = true -> drop_spaces (ws ++ s) = drop_spaces s.
Proof.
  induction ws as [|c ws IH]; simpl; [done|].
  intros [Hc Hws]%andb_prop. rewrite Hc. auto.
Qed.

Lemma drop_spaces_nonspace c s : is_space c = false -> drop_spaces (c :: s) = c :: s.
Proof. intros Hc. simpl. by rewrite Hc. Qed.

Lemma match_br_tag ws slash s :
  forallb is_space ws = true -> match_br (br_tag ws slash ++ s) = Some s.
Proof.
  intros Hws. unfold match_br, br_tag. rewrite <- !app_assoc. simpl.
  rewrite drop_spaces_app by done. destruct slash; reflexivity.
Qed.

Lemma match_br_other c s : c <> "<"%char -> match_br (c :: s) = None.
Proof.
  intros Hc. unfold match_br. cbn -[Ascii.eqb].
  destruct (Ascii.eqb_spec "<"%char c) as [Heq|_]; [congruence | reflexivity].
Qed.

Lemma re_sub_match m repl c body s :
  m (c :: body ++ s) = Some s ->
  re_sub m repl 0 (c :: body ++ s) = repl ++ re_sub m repl 0 s.
Proof.
  intros Hm. cbn [re_sub]. rewrite Hm. f_equal.
  rewrite length_app.
  replace (length body + length s - length s)%nat with (length body) by lia.
  apply re_sub_skip.
Qed.

Lemma br_tag_cons ws slash s :
  br_tag ws slash ++ s =
  "<"%char :: ("b"%char :: "r"%char :: ws ++ (if slash then chars "/" else []) ++ chars ">") ++ s.
Proof. unfold br_tag. simpl. by rewrite <- !app_assoc. Qed.

Lemma sub_br_tag ws slash s :
  forallb is_space ws = true -> sub_br (br_tag ws slash ++ s) = " "%char :: sub_br s.
Proof.
  intros Hws. unfold sub_br.
  pose proof (match_br_tag ws slash s Hws) as Hm.
  rewrite br_tag_cons in *.
  by rewrite re_sub_match.
Qed.

Lemma sub_br_other c s : c <> "<"%char -> sub_br (c :: s) = c :: sub_br s.
Proof. intros Hc. unfold sub_br. cbn [re_sub]. by rewrite match_br_other. Qed.

Lemma sub_br_no_lt s : br_markup_only s -> no_lt (sub_br s).
Proof.
  induction 1 as [|c s Hc _ IH|ws slash s Hws _ IH].
  - constructor.
  - rewrite sub_br_other by done. by constructor.
  - rewrite sub_br_tag by done. by constructor.
Qed.

Lemma sub_br_id s : no_lt s -> sub_br s = s.
Proof.
  induction 1 as [|c s Hc _ IH]; [reflexivity|].
  rewrite sub_br_other by done. by f_equal.
Qed.

(** What the three later steps keep. *)

Lemma sub_punct_Forall (P : ascii -> Prop) s :
  P " "%char -> Forall P s -> Forall P (sub_punct s).
Proof.
  intros Hsp. induction 1 as [|c s Hc _ IH]; simpl; [constructor|].
  case_match; repeat constructor; done.
Qed.

Lemma collapse_ws_Forall (P : ascii -> Prop) s :
  P " "%char -> Forall P s -> Forall P (collapse_ws s).
Proof.
  intros Hsp. induction 1 as [|c s Hc Hs IH]; [constructor|].
  cbn [collapse_ws]. destruct (is_space c).
  - destruct s as [|d s]; [by repeat constructor|].
    destruct (is_space d); [done | by constructor].
  - by constructor.
Qed.

Lemma drop_spaces_suffix s : exists ws, s = ws ++ drop_spaces s /\ forallb is_space ws = true.
Proof.
  induction s as [|c s (ws & Hs & Hws)]; [by exists []|].
  simpl. destruct (is_space c) eqn:Hc.
  - exists (c :: ws). simpl. rewrite Hc, Hws. split; [by f_equal | done].
  - by exists [].
Qed.

Lemma drop_spaces_Forall (P : ascii -> Prop) s : Forall P s -> Forall P (drop_spaces s).
Proof.
  destruct (drop_spaces_suffix s) as (ws & Hs & _).
  rewrite Hs at 1. by intros [_ ?]%Forall_app.
Qed.

Lemma rstrip_Forall (P : ascii -> Prop) s : Forall P s -> Forall P (rstrip s).
Proof.
  induction 1 as [|c s Hc _ IH]; simpl; [constructor|].
  destruct (rstrip s) as [|d r].
  - destruct (is_space c); by repeat constructor.
  - by constructor.
Qed.

Lemma rstrip_head s d r : rstrip s = d :: r -> exists s', s = d :: s'.
Proof.
  destruct s as [|c s]; simpl; [done|].
  destruct (rstrip s); [destruct (is_space c)|]; intros [= <- _] || done; eauto.
Qed.

Lemma sub_punct_next p s : next_is p (sub_punct s) = next_is p s.
Proof. destruct s as [|c s]; simpl; [done|]. by case_match. Qed.

Lemma sub_punct_ok s : punct_ok (sub_punct s).
Proof.
  induction s as [|c s IH]; simpl; [done|].
  fold (next_is is_letter s).
  destruct (is_punct c && next_is is_letter s) eqn:Hc; simpl.
  - repeat split; [by rewrite andb_false_r | done].
  - by rewrite sub_punct_next.
Qed.

Lemma sub_punct_id s : punct_ok s -> sub_punct s = s.
Proof.
  induction s as [|c s IH]; simpl; [done|].
  fold (next_is is_letter s). intros [-> Hs]. by rewrite IH.
Qed.

Lemma space_not_letter c : is_space c = true -> is_letter c = false.
Proof.
  unfold is_space, is_letter. generalize (nat_of_ascii c). intros n Hn.
  apply orb_false_intro; apply andb_false_iff;
    repeat match goal with
    | H : _ || _ = true |- _ => apply orb_true_iff in H as [H|H]
    | H : _ && _ = true |- _ => apply andb_true_iff in H as [? ?]
    | H : (_ <=? _)%nat = true |- _ => apply Nat.leb_le in H
    | H : (_ =? _)%nat = true |- _ => apply Nat.eqb_eq in H
    end;
    first [ left; apply Nat.leb_gt; lia | right; apply Nat.leb_gt; lia ].
Qed.

Lemma collapse_ws_next s :
  next_is is_letter (collapse_ws s) = next_is is_letter s.
Proof.
  induction s as [|c s IH]; [done|]. cbn [collapse_ws].
  destruct (is_space c) eqn:Hc.
  - simpl. rewrite (space_not_letter c Hc).
    destruct s as [|d s]; [done|].
    destruct (is_space d) eqn:Hd; [|done].
    rewrite IH. simpl. by apply space_not_letter.
  - done.
Qed.

Lemma collapse_ws_punct_ok s : punct_ok s -> punct_ok (collapse_ws s).
Proof.
  induction s as [|c s IH]; [done|]. intros [Hc Hs]. cbn [collapse_ws].
  destruct (is_space c) eqn:Hsp.
  - destruct s as [|d s]; [by repeat split|].
    destruct (is_space d); [by apply IH|]. split; [done | by apply IH].
  - split; [by rewrite collapse_ws_next | by apply IH].
Qed.

Lemma punct_ok_app_r s1 s2 : punct_ok (s1 ++ s2) -> punct_ok s2.
Proof. induction s1 as [|c s1 IH]; simpl; [done|]. intros [_ ?]. auto. Qed.

Lemma drop_spaces_punct_ok s : punct_ok s -> punct_ok (drop_spaces s).
Proof.
  destruct (drop_spaces_suffix s) as (ws & Hs & _).
  rewrite Hs at 1. apply punct_ok_app_r.
Qed.

Lemma rstrip_punct_ok s : punct_ok s -> punct_ok (rstrip s).
Proof.
  induction s as [|c s IH]; [done|]. intros [Hc Hs]. simpl.
  destruct (rstrip s) as [|d r] eqn:Hr.
  - destruct (is_space c); [done|]. split; [by rewrite andb_false_r | done].
  - destruct (rstrip_head _ _ _ Hr) as [s' ->].
    split; [exact Hc | by apply IH].
Qed.

Lemma collapse_ws_next_space s :
  next_is is_space (collapse_ws s) = next_is is_space s.
Proof.
  induction s as [|c s IH]; [done|]. cbn [collapse_ws].
  destruct (is_space c) eqn:Hc; [|by simpl].
  destruct s as [|d s]; [by simpl|].
  destruct (is_space d) eqn:Hd; [|by simpl].
  rewrite IH. simpl. by rewrite Hc, Hd.
Qed.

Lemma collapse_ws_norm s : ws_norm (collapse_ws s).
Proof.
  induction s as [|c s IH]; [done|]. cbn [collapse_ws].
  destruct (is_space c) eqn:Hc.
  - destruct s as [|d s]; [by repeat split|].
    destruct (is_space d) eqn:Hd; [done|].
    split; [|done]. intros _. split; [done|].
    rewrite collapse_ws_next_space. by simpl.
  - split; [|done]. intros Hc'. simpl in Hc'. congruence.
Qed.

Lemma collapse_ws_id s : ws_norm s -> collapse_ws s = s.
Proof.
  induction s as [|c s IH]; [done|]. intros [Hc Hs]. cbn [collapse_ws].
  destruct (is_space c) eqn:Hsp.
  - destruct (Hc eq_refl) as [-> Hn].
    destruct s as [|d s]; [done|]. simpl in Hn. rewrite Hn. by rewrite IH.
  - by rewrite IH.
Qed.

Lemma ws_norm_app_r s1 s2 : ws_norm (s1 ++ s2) -> ws_norm s2.
Proof. induction s1 as [|c s1 IH]; simpl; [done|]. intros [_ ?]. auto. Qed.

Lemma drop_spaces_norm s : ws_norm s -> ws_norm (drop_spaces s).
Proof.
  destruct (drop_spaces_suffix s) as (ws & Hs & _).
  rewrite Hs at 1. apply ws_norm_app_r.
Qed.

Lemma rstrip_norm s : ws_norm s -> ws_norm (rstrip s).
Proof.
  induction s as [|c s IH]; [done|]. intros [Hc Hs]. simpl.
  destruct (rstrip s) as [|d r] eqn:Hr.
  - destruct (is_space c) eqn:Hsp; [done|]. split; [|done]. congruence.
  - destruct (rstrip_head _ _ _ Hr) as [s' ->].
    split; [exact Hc | by apply IH].
Qed.

Lemma drop_spaces_head s : next_is is_space (drop_spaces s) = false.
Proof.
  induction s as [|c s IH]; [done|]. simpl.
  destruct (is_space c) eqn:Hc; [done | by simpl].
Qed.

Lemma drop_spaces_id s : next_is is_space s = false -> drop_spaces s = s.
Proof. destruct s as [|c s]; simpl; [done|]. by intros ->. Qed.

Lemma rstrip_next s : next_is is_space s = false -> next_is is_space (rstrip s) = false.
Proof.
  destruct s as [|c s]; simpl; [done|]. intros Hc.
  destruct (rstrip s); [by rewrite Hc; simpl|by simpl].
Qed.

Lemma rstrip_cons c s :
  rstrip (c :: s) =
  match rstrip s with
  | [] => if is_space c then [] else [c]
  | r => c :: r
  end.
Proof. reflexivity. Qed.

Lemma rstrip_idem s : rstrip (rstrip s) = rstrip s.
Proof.
  induction s as [|c s IH]; [done|]. rewrite rstrip_cons.
  destruct (rstrip s) as [|d r] eqn:Hr.
  - destruct (is_space c) eqn:Hc; [done|]. simpl. by rewrite Hc.
  - rewrite rstrip_cons, IH. done.
Qed.

Lemma strip_idem s : strip (strip s) = strip s.
Proof.
  unfold strip.
  rewrite (drop_spaces_id (rstrip (drop_spaces s))).
  - apply rstrip_idem.
  - apply rstrip_next, drop_spaces_head.
Qed.

(** The output of [clean_text] is a fixed point of its last two steps, and
    of its first step too when it holds no [<]. *)
Lemma clean_chars_fixed s :
  no_lt (clean_chars s) -> clean_chars (clean_chars s) = clean_chars s.
Proof.
  intros Hlt. unfold clean_chars at 1.
  rewrite (sub_br_id _ Hlt).
  assert (Hp : punct_ok (clean_chars s)).
  { apply rstrip_punct_ok, drop_spaces_punct_ok, collapse_ws_punct_ok, sub_punct_ok. }
  rewrite (sub_punct_id _ Hp).
  assert (Hn : ws_norm (clean_chars s)).
  { apply rstrip_norm, drop_spaces_norm, collapse_ws_norm. }
  rewrite (collapse_ws_id _ Hn).
  apply strip_idem.
Qed.

Lemma clean_chars_no_lt s : br_markup_only s -> no_lt (clean_chars s).
Proof.
  intros Hs. unfold clean_chars, strip.
  apply rstrip_Forall, drop_spaces_Forall, collapse_ws_Forall; [done|].
  apply sub_punct_Forall; [done|]. by apply sub_br_no_lt.
Qed.

Lemma chars_text l : chars (text l) = l.
Proof. apply list_ascii_of_string_of_list_ascii. Qed.

Lemma text_chars s : text (chars s) = s.
Proof. apply string_of_list_ascii_of_string. Qed.

(** C9.  [clean_text] is idempotent on every input whose only markup is
    line-break tags (each [<] opens a tag of the form [<br\s*/?>]), whatever
    its whitespace and punctuation look like: cleaning the cleaned text
    changes nothing. *)
Theorem clean_text_idempotent (x : string) :
  br_markup_only (chars x) -> clean_text (clean_text x) = clean_text x.
Proof.
  intros Hx. unfold clean_text. rewrite chars_text. f_equal.
  apply clean_chars_fixed, clean_chars_no_lt, Hx.
Qed.

(** ** Local strategy *)

Section Local_facts.
Context `{External}.

Ltac run := unfold nli_classify, try_except, bind, call, lift, ret, raise, print, gets, modify.

Lemma Qltb_lt x y : Qltb x y = true <-> (x < y)%Q.
Proof.
  unfold Qltb. rewrite negb_true_iff. split.
  - intros Hb. apply Qnot_le_lt. intros Hle. apply Qle_bool_iff in Hle. congruence.
  - intros Hlt. destruct (Qle_bool y x) eqn:Hb; [|done].
    apply Qle_bool_iff in Hb. exfalso. by apply (Qlt_not_le x y).
Qed.

Lemma Qltb_ge x y : Qltb x y = false <-> (y <= x)%Q.
Proof.
  unfold Qltb. rewrite negb_false_iff. apply Qle_bool_iff.
Qed.

(** One iteration, when the classifier call raises. *)
Lemma nli_classify_raise zsc thr snips review rows a st e w :
  zsc_call zsc (focused snips review a) sentiments (template a) (world st) = (Raise e, w) ->
  nli_classify zsc thr snips review rows a st =
  (Ok (rows ++ [nli_row a "error" 0]),
   printed (with_world st w) ("Error processing aspect '" +:+ a +:+ "': " +:+ exn_msg e)).
Proof.
  intros Hz. run. fold (focused snips review a) (template a). by rewrite Hz.
Qed.

(** One iteration, when the classifier call returns a ranked result. *)
Lemma nli_classify_ok zsc thr snips review rows a st label ls score ss w :
  zsc_call zsc (focused snips review a) sentiments (template a) (world st)
    = (Ok (mk_zsc_output (label :: ls) (score :: ss)), w) ->
  nli_classify zsc thr snips review rows a st =
  (Ok (rows ++ [nli_row a (if Qltb score thr then "not_mentioned"%string else label)
                        (round3 score)]),
   with_world st w).
Proof.
  intros Hz. run. fold (focused snips review a) (template a). by rewrite Hz.
Qed.

(** One iteration never raises and appends exactly one row for its aspect. *)
Lemma nli_classify_total zsc thr snips review rows a st :
  exists label conf st',
    nli_classify zsc thr snips review rows a st = (Ok (rows ++ [nli_row a label conf]), st').
Proof.
  run.
  destruct (zsc_call _ _ _ _ _) as [[[ls ss]|e] w]; simpl; [|by eauto].
  destruct ls as [|label ls]; simpl; [by eauto|].
  destruct ss as [|score ss]; simpl; by eauto.
Qed.

(** The loop never raises; it appends one row per aspect, in order. *)
Lemma nli_loop_total zsc thr snips review aspects rows st :
  exists out st',
    nli_loop zsc thr snips review aspects rows st = (Ok (rows ++ out), st') /\
    Forall2 row_for aspects out.
Proof.
  revert rows st. induction aspects as [|a rest IH]; intros rows st.
  - exists [], st. rewrite app_nil_r. split; [done | constructor].
  - destruct (nli_classify_total zsc thr snips review rows a st) as (label & conf & st1 & H1).
    destruct (IH (rows ++ [nli_row a label conf]) st1) as (out & st2 & H2 & Hout).
    exists (nli_row a label conf :: out), st2. split.
    + cbn [nli_loop]. unfold bind at 1. rewrite H1, H2. by rewrite <- app_assoc.
    + constructor; [by exists label, conf | done].
Qed.

(** The rows already collected play no part in an iteration. *)
Lemma nli_classify_acc zsc thr snips review rows a st out st' :
  nli_classify zsc thr snips review [] a st = (Ok out, st') ->
  nli_classify zsc thr snips review rows a st = (Ok (rows ++ out), st').
Proof.
  run.
  destruct (zsc_call _ _ _ _ _) as [[[ls ss]|e] w]; simpl; [|by intros [= <- <-]].
  destruct ls as [|label ls]; simpl; [by intros [= <- <-]|].
  destruct ss as [|score ss]; simpl; by intros [= <- <-].
Qed.

Lemma nli_loop_acc zsc thr snips review aspects rows st out st' :
  nli_loop zsc thr snips review aspects [] st = (Ok out, st') ->
  nli_loop zsc thr snips review aspects rows st = (Ok (rows ++ out), st').
Proof.
  revert rows st out st'. induction aspects as [|a rest IH]; intros rows st out st'.
  - cbn. intros [= <- <-]. by rewrite app_nil_r.
  - cbn [nli_loop]. intros Hrun. unfold bind in Hrun |- *.
    destruct (nli_classify_total zsc thr snips review [] a st) as (label & conf & st1 & H1).
    rewrite H1 in Hrun. rewrite (nli_classify_acc _ _ _ _ rows _ _ _ _ H1).
    destruct (nli_loop_total zsc thr snips review rest [] st1) as (o & st2 & H2 & _).
    rewrite (IH _ _ _ _ H2) in Hrun. injection Hrun as <- <-.
    rewrite (IH _ _ _ _ H2). by rewrite <- !app_assoc.
Qed.

Lemma nli_loop_app zsc thr snips review l1 l2 rows st rows1 st1 :
  nli_loop zsc thr snips review l1 rows st = (Ok rows1, st1) ->
  nli_loop zsc thr snips review (l1 ++ l2) rows st =
  nli_loop zsc thr snips review l2 rows1 st1.
Proof.
  revert rows st. induction l1 as [|a l1 IH]; intros rows st.
  - cbn. by intros [= <- <-].
  - cbn [nli_loop app]. unfold bind at 1 2.
    destruct (nli_classify _ _ _ _ _ _ _) as [[r|e] st0]; [apply IH | done].
Qed.

(** C3.  For an aspect whose classification returns a ranked result, the
    row appended for it carries ["not_mentioned"] when the winning score is
    strictly below the threshold, whatever label won, and the winning label
    itself when the score is at or above the threshold. *)
Theorem nli_threshold zsc thr snips review l1 a l2 rows st rows1 st1 label ls score ss w :
  nli_loop zsc thr snips review l1 rows st = (Ok rows1, st1) ->
  zsc_call zsc (focused snips review a) sentiments (template a) (world st1)
    = (Ok (mk_zsc_output (label :: ls) (score :: ss)), w) ->
  exists sent out st3,
    nli_loop zsc thr snips review (l1 ++ a :: l2) rows st
      = (Ok (rows1 ++ nli_row a sent (round3 score) :: out), st3) /\
    ((score < thr)%Q -> sent = "not_mentioned"%string) /\
    ((thr <= score)%Q -> sent = label).
Proof.
  intros Hl1 Hz.
  destruct (nli_loop_total zsc thr snips review l2 [] (with_world st1 w))
    as (out & st3 & Hl2 & _).
  exists (if Qltb score thr then "not_mentioned"%string else label), out, st3.
  split; [|split].
  - rewrite (nli_loop_app _ _ _ _ _ _ _ _ _ _ Hl1). cbn [nli_loop]. unfold bind at 1.
    rewrite (nli_classify_ok _ _ _ _ _ _ _ _ _ _ _ _ Hz).
    rewrite (nli_loop_acc _ _ _ _ _ _ _ _ _ Hl2). by rewrite <- app_assoc.
  - intros Hlt. apply Qltb_lt in Hlt. by rewrite Hlt.
  - intros Hge. apply Qltb_ge in Hge. by rewrite Hge.
Qed.

(** C4.  If the classification call for aspect [a] raises, the row for [a]
    is [{aspect: a, sentiment: "error", confidence: 0.0}]; the rows before
    it stay, and the aspects after it are processed exactly as the loop
    processes them on its own from the state the failure left, one row
    each: the batch is not aborted. *)
Theorem nli_failure_isolated zsc thr snips review l1 a l2 rows st rows1 st1 e w :
  nli_loop zsc thr snips review l1 rows st = (Ok rows1, st1) ->
  zsc_call zsc (focused snips review a) sentiments (template a) (world st1) = (Raise e, w) ->
  exists out st3,
    nli_loop zsc thr snips review l2 []
      (printed (with_world st1 w) ("Error processing aspect '" +:+ a +:+ "': " +:+ exn_msg e))
      = (Ok out, st3) /\
    Forall2 row_for l2 out /\
    nli_loop zsc thr snips review (l1 ++ a :: l2) rows st
      = (Ok (rows1 ++ nli_row a "error" 0 :: out), st3).
Proof.
  intros Hl1 Hz.
  destruct (nli_loop_total zsc thr snips review l2 []
              (printed (with_world st1 w)
                 ("Error processing aspect '" +:+ a +:+ "': " +:+ exn_msg e)))
    as (out & st3 & Hl2 & Hrows).
  exists out, st3. split; [exact Hl2 | split; [exact Hrows|]].
  rewrite (nli_loop_app _ _ _ _ _ _ _ _ _ _ Hl1). cbn [nli_loop]. unfold bind at 1.
  rewrite (nli_classify_raise _ _ _ _ _ _ _ _ _ Hz).
  rewrite (nli_loop_acc _ _ _ _ _ _ _ _ _ Hl2). by rewrite <- app_assoc.
Qed.

(** *** Preprocessing *)

Lemma dict_comp_lookup {V : Type} (keys : list string) (v : V) a :
  a ∈ keys -> dict_comp keys v !! a = Some v.
Proof.
  intros Ha. unfold dict_comp.
  cut (forall d : gmap string V,
         a ∈ keys \/ d !! a = Some v ->
         foldl (fun d a => <[a := v]> d) d keys !! a = Some v); [by auto|].
  clear Ha. induction keys as [|k keys IH]; intros d Hd; simpl.
  - destruct Hd as [Hd|Hd]; [by apply elem_of_nil in Hd | done].
  - apply IH. destruct (decide (a = k)) as [->|Hne].
    + right. apply lookup_insert_eq.
    + destruct Hd as [Hd|Hd].
      * apply elem_of_cons in Hd as [?|?]; [done | by left].
      * right. by rewrite lookup_insert_ne.
Qed.

(** Preprocessing never raises. *)
Lemma nli_preprocess_total review aspects st :
  exists snips st', nli_preprocess review aspects st = (Ok snips, st').
Proof.
  unfold nli_preprocess, try_except.
  destruct (nli_snippets _ _ _) as [[snips|e] st1]; [by eauto|].
  unfold bind, print, ret. by eauto.
Qed.

(** C5 (as the code has it).  If a preprocessing step after the cleaning
    (segmentation, embedding or ranking) raises, the strategy does not
    abort: every aspect's snippet becomes the cleaned review text, and the
    strategy goes on to load the classifier and classify each aspect. *)
Theorem nli_preprocess_fallback review aspects thr st e st1 :
  nli_snippets (clean_text review) aspects st = (Raise e, st1) ->
  nli_preprocess review aspects st
    = (Ok (dict_comp aspects (clean_text review)), printed st1 (fallback_line e)) /\
  (forall a, a ∈ aspects ->
     focused (dict_comp aspects (clean_text review)) review a = clean_text review) /\
  nli_aspect_sentiment review (Some aspects) (Some thr) st
    = (zsc <- _get_zsc_pipeline ;;
       nli_loop zsc thr (dict_comp aspects (clean_text review)) review aspects [])
      (printed st1 (fallback_line e)).
Proof.
  intros Hraise.
  assert (Hpre : nli_preprocess review aspects st
    = (Ok (dict_comp aspects (clean_text review)), printed st1 (fallback_line e))).
  { unfold nli_preprocess, try_except. by rewrite Hraise. }
  split; [exact Hpre | split].
  - intros a Ha. unfold focused. by rewrite dict_comp_lookup.
  - unfold nli_aspect_sentiment. cbn [from_option id]. unfold bind at 1. by rewrite Hpre.
Qed.

(** *** Orchestrator *)

Lemma normalize_nli_rows aspects out :
  Forall2 row_for aspects out ->
  exists df, traverse normalize_row out = Ok df /\ aspect <$> df = VStr <$> aspects.
Proof.
  induction 1 as [|a r aspects out (label & conf & ->) _ (df & Hdf & Hcol)].
  - by exists [].
  - exists (mk_row (VStr a) (VStr label) :: df). cbn. rewrite Hdf. split; [done|].
    by rewrite Hcol.
Qed.

(** [analyze] on the local path, once preprocessing has run. *)
Lemma analyze_local_run c review a0 aspects st snips st1 :
  nli_preprocess (String c review) (a0 :: aspects) st = (Ok snips, st1) ->
  analyze (Some (String c review)) (Some (a0 :: aspects)) LOCAL_METHOD st =
  match _get_zsc_pipeline st1 with
  | (Ok p, st2) =>
      match nli_loop p DEFAULT_NLI_THRESHOLD snips (String c review) (a0 :: aspects) [] st2 with
      | (Ok out, st3) =>
          (match traverse normalize_row out with
           | Ok df => df
           | Raise e => error_table e
           end, st3)
      | (Raise e, st3) => (error_table e, st3)
      end
  | (Raise e, st2) => (error_table e, st2)
  end.
Proof.
  intros Hpre.
  unfold analyze, analyze_body.
  replace (String.eqb LOCAL_METHOD LLM_METHOD) with false by reflexivity.
  unfold nli_aspect_sentiment. cbn [from_option id].
  unfold bind, ret, lift. rewrite Hpre.
  destruct (_get_zsc_pipeline st1) as [[p|e] st2]; [|done].
  destruct (nli_loop _ _ _ _ _ _ _) as [[out|e] st3]; [|done].
  cbn [iterate]. by destruct (traverse normalize_row out).
Qed.

(** C2 (as the code has it).  For a non-empty review and a non-empty aspect
    list, [analyze] with the local strategy returns one row per requested
    aspect, with the aspect column equal to the requested sequence, provided
    the classifier pipeline can be obtained; when obtaining it raises, the
    result is the single [(error)] row instead. *)
Theorem analyze_local_rows review aspects st snips st1 :
  review <> ""%string -> aspects <> [] ->
  nli_preprocess review aspects st = (Ok snips, st1) ->
  match _get_zsc_pipeline st1 with
  | (Ok _, _) =>
      let df := fst (analyze (Some review) (Some aspects) LOCAL_METHOD st) in
      length df = length aspects /\ aspect <$> df = VStr <$> aspects
  | (Raise e, st2) =>
      analyze (Some review) (Some aspects) LOCAL_METHOD st = (error_table e, st2)
  end.
Proof.
  intros Hrev Hasp Hpre.
  destruct review as [|c review]; [done|]. destruct aspects as [|a0 aspects]; [done|].
  rewrite (analyze_local_run _ _ _ _ _ _ _ Hpre).
  destruct (_get_zsc_pipeline st1) as [[p|e] st2]; [|done].
  destruct (nli_loop_total p DEFAULT_NLI_THRESHOLD snips (String c review) (a0 :: aspects) [] st2)
    as (out & st3 & Hloop & Hrows).
  rewrite Hloop. cbn [app].
  destruct (normalize_nli_rows _ _ Hrows) as (df & -> & Hcol). cbn [fst].
  split; [|done].
  rewrite <- (length_fmap aspect df), Hcol. by rewrite length_fmap.
Qed.

(** C1.  [analyze] returns a table for every input and every state: when
    its body completes, the body's table; when anything in the body raises,
    the single row whose aspect is ["(error)"] and whose sentiment is the
    exception's type name, a colon and a space, and its message. *)
Theorem analyze_never_raises review aspects method st :
  match analyze_body review aspects method st with
  | (Ok df, st') => analyze review aspects method st = (df, st')
  | (Raise e, st') =>
      analyze review aspects method st
      = ([mk_row (VStr "(error)") (VStr (exn_name e +:+ ": " +:+ exn_msg e))], st')
  end.
Proof.
  unfold analyze. by destruct (analyze_body review aspects method st) as [[df|e] st'].
Qed.

(** C8.  An absent or empty review gives the single row with an empty
    aspect and the sentiment ["(no review)"], for every aspect list and
    every method. *)
Theorem analyze_no_review aspects method st :
  analyze None aspects method st = ([mk_row (VStr "") (VStr "(no review)")], st) /\
  analyze (Some ""%string) aspects method st = ([mk_row (VStr "") (VStr "(no review)")], st).
Proof. split; reflexivity. Qed.

(** C10.  Only the exact string ["LLM (OpenAI)"] selects the remote
    strategy: with any other method string [analyze] does what it does for
    ["Zero-shot NLI (local)"], and its body is the local strategy followed
    by the normalisation of its rows. *)
Theorem analyze_other_method_is_local review aspects method st :
  method <> LLM_METHOD ->
  analyze review aspects method st = analyze review aspects LOCAL_METHOD st /\
  (forall c r,
     analyze_body (Some (String c r)) aspects method st
     = (rows <- nli_aspect_sentiment (String c r)
                  (Some match aspects with
                        | None | Some [] => DEFAULT_ASPECTS
                        | Some l => l
                        end) None ;;
        lift (traverse normalize_row rows)) st).
Proof.
  intros Hm. apply String.eqb_neq in Hm.
  split.
  - unfold analyze, analyze_body. rewrite Hm.
    by replace (String.eqb LOCAL_METHOD LLM_METHOD) with false by reflexivity.
  - intros c r. unfold analyze_body. rewrite Hm. unfold bind, ret, lift.
    destruct (nli_aspect_sentiment _ _ _ st) as [[rows|e] st1]; reflexivity.
Qed.

End Local_facts.

(** ** Remote strategy: parsing the response *)

Lemma space_facts c :
  is_space c = true ->
  c <> "["%char /\ c <> "]"%char /\ c <> "`"%char /\ Ascii.eqb "j" (to_lower c) = false.
Proof.
  destruct c as [[] [] [] [] [] [] [] []]; vm_compute; intros Hc;
    try discriminate Hc; repeat split; discriminate.
Qed.

Lemma json_ws_space c : is_json_ws c = true -> is_space c = true.
Proof.
  destruct c as [[] [] [] [] [] [] [] []]; vm_compute; intros Hc;
    try discriminate Hc; reflexivity.
Qed.

Lemma json_ws_spaces s : forallb is_json_ws s = true -> forallb is_space s = true.
Proof.
  induction s as [|c s IH]; simpl; [done|].
  intros [Hc Hs]%andb_prop. by rewrite (json_ws_space c Hc), IH.
Qed.

Lemma forallb_app_true {A} (p : A -> bool) l1 l2 :
  forallb p l1 = true -> forallb p l2 = true -> forallb p (l1 ++ l2) = true.
Proof. intros H1 H2. rewrite forallb_app. by rewrite H1, H2. Qed.

Lemma spaces_no_char (c : ascii) ws :
  is_space c = false -> forallb is_space ws = true -> c ∉ ws.
Proof.
  intros Hc Hws Hin. rewrite forallb_forall in Hws.
  apply list_elem_of_In in Hin. specialize (Hws _ Hin). congruence.
Qed.

Lemma strip_prefix_app p s : strip_prefix p (p ++ s) = Some s.
Proof.
  induction p as [|c p IH]; simpl; [done|]. by rewrite Ascii.eqb_refl.
Qed.

Lemma strip_prefix_ci_app p tag s :
  to_lower <$> tag = p -> strip_prefix_ci p (tag ++ s) = Some s.
Proof.
  revert p. induction tag as [|c tag IH]; intros p <-; simpl; [done|].
  rewrite Ascii.eqb_refl. by apply IH.
Qed.

Lemma strip_prefix_Some p s r : strip_prefix p s = Some r -> s = p ++ r.
Proof.
  revert s. induction p as [|c p IH]; intros s; simpl; [by intros [= ->]|].
  destruct s as [|d s]; [done|].
  destruct (Ascii.eqb_spec c d) as [->|]; [|done].
  intros Hr. by rewrite (IH _ Hr).
Qed.

(** The closing-fence pattern matches nothing that still holds a []]. *)
Lemma close_fence_no_bracket s : "]"%char ∈ s -> match_close_fence s = None.
Proof.
  intros Hin. unfold match_close_fence.
  destruct (drop_spaces_suffix s) as (ws & Hs & Hws).
  destruct (strip_prefix fence (drop_spaces s)) as [r|] eqn:Hr; [|done].
  destruct (at_end r) eqn:Hend; [|done]. exfalso.
  apply strip_prefix_Some in Hr. rewrite Hr in Hs. rewrite Hs in Hin.
  apply elem_of_app in Hin as [Hin|Hin].
  { by apply (spaces_no_char "]"%char ws). }
  apply elem_of_app in Hin as [Hin|Hin].
  { unfold fence in Hin. cbn in Hin.
    repeat (apply elem_of_cons in Hin as [Hin|Hin]; [discriminate Hin|]).
    by apply elem_of_nil in Hin. }
  destruct r as [|c [|]]; [by apply elem_of_nil in Hin | | done].
  apply list_elem_of_singleton in Hin as <-. discriminate Hend.
Qed.

Lemma re_sub_close_fence_bracket pre rest :
  re_sub match_close_fence [] 0 (pre ++ "]"%char :: rest)
  = pre ++ "]"%char :: re_sub match_close_fence [] 0 rest.
Proof.
  induction pre as [|c pre IH]; cbn [app re_sub].
  - rewrite close_fence_no_bracket by (apply elem_of_cons; by left). done.
  - rewrite close_fence_no_bracket.
    + by rewrite IH.
    + apply elem_of_cons. right. apply elem_of_app. right. apply elem_of_cons. by left.
Qed.

Lemma re_sub_close_fence_tail ws :
  forallb is_space ws = true -> re_sub match_close_fence [] 0 (ws ++ fence) = [].
Proof.
  intros Hws.
  assert (Hm : match_close_fence (ws ++ fence) = Some []).
  { unfold match_close_fence. by rewrite drop_spaces_app. }
  destruct (ws ++ fence) as [|c t] eqn:Ht; [done|].
  cbn [re_sub]. rewrite Hm. cbn [app]. apply re_sub_skip_all. simpl. lia.
Qed.

Lemma rstrip_snoc s c : is_space c = false -> rstrip (s ++ [c]) = s ++ [c].
Proof.
  intros Hc. induction s as [|d s IH]; simpl; [by rewrite Hc|].
  rewrite IH. by destruct (s ++ [c]) eqn:Hs; [destruct s|].
Qed.

Lemma rstrip_spaces ws : forallb is_space ws = true -> rstrip ws = [].
Proof.
  induction ws as [|c ws IH]; simpl; [done|].
  intros [Hc Hws]%andb_prop. by rewrite IH, Hc.
Qed.

Lemma rstrip_app_spaces s c ws :
  is_space c = false -> forallb is_space ws = true ->
  rstrip ((s ++ [c]) ++ ws) = s ++ [c].
Proof.
  intros Hc Hws. induction s as [|d s IH]; simpl.
  - by rewrite rstrip_spaces, Hc.
  - simpl in IH. rewrite IH. by destruct (s ++ [c]) eqn:Hs; [destruct s|].
Qed.

Lemma find_app_fresh c pre s :
  c ∉ pre -> find c (pre ++ c :: s) = Some (length pre).
Proof.
  induction pre as [|d pre IH]; simpl; intros Hc.
  - by rewrite Ascii.eqb_refl.
  - apply not_elem_of_cons in Hc as [Hne Hc].
    destruct (Ascii.eqb_spec d c) as [->|_]; [done|]. by rewrite IH.
Qed.

Lemma rfind_snoc c s : rfind c (s ++ [c]) = Some (length s).
Proof.
  induction s as [|d s IH]; simpl; [by rewrite Ascii.eqb_refl | by rewrite IH].
Qed.

Lemma slice_middle (pre core : list ascii) :
  slice (pre ++ core) (length pre) (length pre + length core) = core.
Proof.
  unfold slice. rewrite drop_app_length.
  replace (length pre + length core - length pre)%nat with (length core) by lia.
  by rewrite firstn_all.
Qed.

(** Bracket extraction on a text that is an array literal after a prefix
    without [[]. *)
Lemma extract_array pre mid :
  "["%char ∉ pre -> next_is is_space (pre ++ ["["%char]) = false ->
  let core := "["%char :: mid ++ ["]"%char] in
  let txt_clean := strip (pre ++ core) in
  match find "["%char txt_clean, rfind "]"%char txt_clean with
  | Some i, Some j => slice txt_clean i (j + 1)
  | _, _ => txt_clean
  end = core.
Proof.
  intros Hpre Hhead core txt_clean.
  assert (Hstrip : txt_clean = pre ++ core).
  { unfold txt_clean, strip. rewrite drop_spaces_id.
    - unfold core. replace (pre ++ "["%char :: mid ++ ["]"%char])
        with ((pre ++ "["%char :: mid) ++ ["]"%char]) by (by rewrite <- app_assoc).
      by apply rstrip_snoc.
    - destruct pre; simpl in *; done. }
  rewrite Hstrip. unfold core at 1 2.
  rewrite find_app_fresh by done.
  replace (pre ++ "["%char :: mid ++ ["]"%char])
    with ((pre ++ "["%char :: mid) ++ ["]"%char]) at 1 by (by rewrite <- app_assoc).
  rewrite rfind_snoc.
  replace (length (pre ++ "["%char :: mid) + 1)%nat with (length pre + length core)%nat.
  - apply slice_middle.
  - unfold core. rewrite !length_app. simpl. rewrite length_app. simpl. lia.
Qed.

Section Remote_facts.
Context `{External}.

Ltac list_norm := repeat (progress (rewrite <- ?app_assoc; cbn [app])).

(** What is left of a fenced array after the fence pattern is removed: the
    array literal, after the opening fence when that one carries no tag. *)
Lemma sub_fences_fenced tag ws1 a mid b ws2 :
  tag = [] \/ (to_lower <$> tag) = chars "json" ->
  forallb is_space ws1 = true -> forallb is_space a = true ->
  forallb is_space b = true -> forallb is_space ws2 = true ->
  exists pre,
    ("["%char ∉ pre) /\ next_is is_space (pre ++ ["["%char]) = false /\
    sub_fences (fenced tag ws1 (a ++ "["%char :: mid ++ "]"%char :: b) ws2)
    = pre ++ "["%char :: mid ++ ["]"%char].
Proof.
  intros Htag H1 Ha Hb H2.
  assert (Htail : re_sub match_close_fence [] 0 (b ++ ws2 ++ fence) = []).
  { rewrite app_assoc. apply re_sub_close_fence_tail. by apply forallb_app_true. }
  assert (Hlead : forallb is_space (ws1 ++ a) = true) by (by apply forallb_app_true).
  unfold fenced, sub_fences, match_open_fence.
  rewrite strip_prefix_app.
  destruct Htag as [->|Htag].
  - (* no tag: the opening fence stays *)
    exists (fence ++ ws1 ++ a).
    assert (Hshape :
      [] ++ ws1 ++ (a ++ "["%char :: mid ++ "]"%char :: b) ++ ws2 ++ fence
      = (ws1 ++ a) ++ "["%char :: mid ++ "]"%char :: (b ++ ws2 ++ fence))
      by (list_norm; reflexivity).
    rewrite Hshape.
    assert (Hci : strip_prefix_ci (chars "json")
              ((ws1 ++ a) ++ "["%char :: mid ++ "]"%char :: (b ++ ws2 ++ fence)) = None).
    { destruct (ws1 ++ a) as [|c t] eqn:Hwa; [reflexivity|].
      simpl in Hlead. apply andb_prop in Hlead as [Hc _].
      destruct (space_facts c Hc) as (_ & _ & _ & Hj).
      cbn -[Ascii.eqb to_lower]. by rewrite Hj. }
    rewrite Hci. split; [|split].
    + intros Hin. apply elem_of_app in Hin as [Hin|Hin].
      * unfold fence in Hin. cbn in Hin.
        repeat (apply elem_of_cons in Hin as [Hin|Hin]; [discriminate Hin|]).
        by apply elem_of_nil in Hin.
      * rewrite forallb_forall in Hlead. apply list_elem_of_In in Hin.
        specialize (Hlead _ Hin). discriminate Hlead.
    + reflexivity.
    + replace (fence ++ (ws1 ++ a) ++ "["%char :: mid ++ "]"%char :: (b ++ ws2 ++ fence))
        with (((fence ++ ws1 ++ a) ++ "["%char :: mid) ++ "]"%char :: (b ++ ws2 ++ fence))
        by (list_norm; reflexivity).
      rewrite re_sub_close_fence_bracket, Htail. list_norm. reflexivity.
  - (* a json tag: the opening fence goes *)
    exists []. rewrite (strip_prefix_ci_app _ _ _ Htag).
    split; [by intros ?%elem_of_nil | split; [reflexivity|]].
    replace (ws1 ++ (a ++ "["%char :: mid ++ "]"%char :: b) ++ ws2 ++ fence)
      with ((ws1 ++ a) ++ ("["%char :: mid) ++ "]"%char :: (b ++ ws2 ++ fence))
      by (list_norm; reflexivity).
    rewrite drop_spaces_app by done.
    cbn [app]. rewrite drop_spaces_nonspace by reflexivity.
    change ("["%char :: mid ++ "]"%char :: b ++ ws2 ++ fence)
      with (("["%char :: mid) ++ "]"%char :: (b ++ ws2 ++ fence)).
    by rewrite re_sub_close_fence_bracket, Htail.
Qed.

Lemma llm_clean_fenced tag ws1 a mid b ws2 :
  tag = [] \/ (to_lower <$> tag) = chars "json" ->
  forallb is_space ws1 = true -> forallb is_space a = true ->
  forallb is_space b = true -> forallb is_space ws2 = true ->
  llm_clean (fenced tag ws1 (a ++ "["%char :: mid ++ "]"%char :: b) ws2)
  = "["%char :: mid ++ ["]"%char].
Proof.
  intros Htag H1 Ha Hb H2.
  destruct (sub_fences_fenced tag ws1 a mid b ws2 Htag H1 Ha Hb H2) as (pre & Hpre & Hhead & Hsub).
  unfold llm_clean. rewrite Hsub. by apply extract_array.
Qed.

Lemma strip_fenced ws0 tag ws1 J ws2 ws3 :
  forallb is_space ws0 = true -> forallb is_space ws3 = true ->
  strip (ws0 ++ fenced tag ws1 J ws2 ++ ws3) = fenced tag ws1 J ws2.
Proof.
  intros H0 H3.
  assert (Hshape : fenced tag ws1 J ws2
    = (chars "```" ++ tag ++ ws1 ++ J ++ ws2 ++ chars "``") ++ ["`"%char]).
  { unfold fenced, fence. cbn [chars list_ascii_of_string]. list_norm. reflexivity. }
  unfold strip. rewrite drop_spaces_app by done. rewrite Hshape.
  rewrite drop_spaces_id by reflexivity.
  by apply rstrip_app_spaces.
Qed.

(** C6.  With a JSON decoder that meets [json_contract]: if [J] decodes to
    an array, then a response that wraps [J] in triple-backtick fences, with
    a [json] tag in any letter case or with no tag, and whitespace anywhere
    around, parses to that same array, as does [J] alone; and when both
    decoding attempts fail the error raised is a [ValueError] whose message
    ends with the first 200 characters of the trimmed response and three
    dots. *)
Theorem llm_parse_fenced J l tag ws0 ws1 ws2 ws3 :
  json_contract ->
  json_loads (text J) = Ok (VList l) ->
  tag = [] \/ (to_lower <$> tag) = chars "json" ->
  forallb is_space ws0 = true -> forallb is_space ws1 = true ->
  forallb is_space ws2 = true -> forallb is_space ws3 = true ->
  llm_parse (text (strip (ws0 ++ fenced tag ws1 J ws2 ++ ws3))) = Ok (VList l) /\
  llm_parse (text (strip J)) = Ok (VList l) /\
  (forall txt e1 e2,
     json_loads txt = Raise e1 -> isinstance e1 "JSONDecodeError" = true ->
     json_loads (text (llm_clean (chars txt))) = Raise e2 ->
     isinstance e2 "JSONDecodeError" || isinstance e2 "ValueError" = true ->
     llm_parse txt = Raise (parse_failure txt) /\
     exn_name (parse_failure txt) = "ValueError"%string /\
     exn_msg (parse_failure txt)
     = ("Failed to parse OpenAI response as JSON. Response was: "
        +:+ text (take 200 (chars txt)) +:+ "...")%string).
Proof.
  intros [Htick Harr] HJ Htag H0 H1 H2 H3.
  destruct (Harr J l HJ) as (a & mid & b & -> & Ha & Hb & Hcore).
  apply json_ws_spaces in Ha, Hb.
  split; [|split].
  - rewrite strip_fenced by done. unfold llm_parse.
    destruct (Htick (chars "``" ++ tag ++ ws1 ++ (a ++ "["%char :: mid ++ "]"%char :: b)
                       ++ ws2 ++ fence)) as (e & He & Hinst).
    change (text (fenced tag ws1 (a ++ "["%char :: mid ++ "]"%char :: b) ws2))
      with (text ("`"%char :: chars "``" ++ tag ++ ws1
                    ++ (a ++ "["%char :: mid ++ "]"%char :: b) ++ ws2 ++ fence)).
    rewrite He, Hinst. rewrite chars_text.
    change ("`"%char :: chars "``" ++ tag ++ ws1
              ++ (a ++ "["%char :: mid ++ "]"%char :: b) ++ ws2 ++ fence)
      with (fenced tag ws1 (a ++ "["%char :: mid ++ "]"%char :: b) ws2).
    rewrite llm_clean_fenced by done. by rewrite Hcore.
  - assert (Hs : strip (a ++ "["%char :: mid ++ "]"%char :: b) = "["%char :: mid ++ ["]"%char]).
    { unfold strip. rewrite drop_spaces_app by done.
      rewrite drop_spaces_nonspace by reflexivity.
      replace ("["%char :: mid ++ "]"%char :: b)
        with ((("["%char :: mid) ++ ["]"%char]) ++ b) by (by rewrite <- app_assoc).
      by rewrite rstrip_app_spaces. }
    rewrite Hs. unfold llm_parse. by rewrite Hcore.
  - intros txt e1 e2 He1 Hi1 He2 Hi2. unfold llm_parse.
    rewrite He1, Hi1, He2, Hi2. done.
Qed.

End Remote_facts.

(** ** Aspect Relevance Ranker *)

Lemma first_wins_orders : orders_by_score first_wins.
Proof.
  intros x y. unfold first_wins. split; intros Hb.
  - by apply Qle_bool_iff.
  - apply Qlt_le_weak, Qnot_le_lt. intros Hle. apply Qle_bool_iff in Hle. congruence.
Qed.

Lemma last_wins_orders : orders_by_score last_wins.
Proof.
  intros x y. unfold last_wins, Qltb. split; intros Hb.
  - apply negb_true_iff in Hb. apply Qlt_le_weak, Qnot_le_lt.
    intros Hle. apply Qle_bool_iff in Hle. congruence.
  - apply negb_false_iff in Hb. by apply Qle_bool_iff.
Qed.

Lemma insert_by_perm before x l : insert_by before x l ≡ₚ x :: l.
Proof.
  induction l as [|y l IH]; simpl; [done|].
  destruct (before x.2 y.2); [done|]. rewrite IH. apply Permutation_swap.
Qed.

Lemma sort_by_perm before l : sort_by before l ≡ₚ l.
Proof.
  induction l as [|x l IH]; simpl; [done|].
  rewrite insert_by_perm. by rewrite IH.
Qed.

Lemma insert_by_sorted before x l :
  orders_by_score before ->
  StronglySorted score_ge l -> StronglySorted score_ge (insert_by before x l).
Proof.
  intros Hord. induction 1 as [|y l Hl IH Hy]; simpl.
  - repeat constructor.
  - destruct (before x.2 y.2) eqn:Hb.
    + constructor; [by constructor|].
      apply (Hord x.2 y.2) in Hb. constructor; [exact Hb|].
      eapply Forall_impl; [exact Hy|]. intros z Hz. unfold score_ge in *.
      by eapply Qle_trans.
    + constructor; [exact IH|].
      rewrite insert_by_perm. constructor; [|done].
      by apply (Hord x.2 y.2).
Qed.

Lemma sort_by_sorted before l :
  orders_by_score before -> StronglySorted score_ge (sort_by before l).
Proof.
  intros Hord. induction l as [|x l IH]; simpl; [constructor|].
  by apply insert_by_sorted.
Qed.

Lemma sorted_descending l :
  StronglySorted score_ge l -> descending (snd <$> l).
Proof.
  induction 1 as [|x l Hl IH Hx]; intros i j a b Hij Hi Hj.
  - done.
  - destruct i as [|i], j as [|j]; simpl in *.
    + injection Hi as <-. injection Hj as <-. apply Qle_refl.
    + injection Hi as <-.
      change (list_fmap _ _ snd l) with (snd <$> l) in Hj.
      apply list_lookup_fmap_Some in Hj as (y & -> & Hy).
      apply list_elem_of_lookup_2 in Hy.
      rewrite Forall_forall in Hx. by apply Hx.
    + lia.
    + apply (IH i j); [lia|done..].
Qed.

Lemma indexed_lookup sims j q : (j, q) ∈ indexed sims -> sims !! j = Some q.
Proof.
  intros (i & Hi)%list_elem_of_lookup_1. unfold indexed in Hi.
  apply lookup_zip_Some in Hi as [Hj Hq].
  apply lookup_seq in Hj as [-> _]. done.
Qed.

Lemma indexed_fst sims : (indexed sims).*1 = seq 0 (length sims).
Proof. unfold indexed. apply fst_zip. by rewrite length_seq. Qed.

Section Ranking.
Variable before : Q -> Q -> bool.
Hypothesis before_orders : orders_by_score before.
Variable sims : list Q.

Local Abbreviation sorted := (sorted_scores before sims).

Lemma ranked_perm : sorted.*1 ≡ₚ seq 0 (length sims).
Proof. unfold sorted_scores. rewrite sort_by_perm. by rewrite indexed_fst. Qed.

Lemma ranked_scores : score_at sims <$> sorted.*1 = sorted.*2.
Proof.
  assert (Hall : Forall (fun p => sims !! p.1 = Some p.2) sorted).
  { unfold sorted_scores. rewrite sort_by_perm. apply Forall_forall.
    intros [j q] Hin. by apply indexed_lookup. }
  induction Hall as [|[j q] l Hp _ IH]; simpl; [done|].
  f_equal; [|exact IH]. unfold score_at. simpl in Hp. by rewrite Hp.
Qed.

Lemma ranked_descending : descending (score_at sims <$> sorted.*1).
Proof. rewrite ranked_scores. apply sorted_descending. by apply sort_by_sorted. Qed.

(** The ranking meets the contract of the top-k primitive. *)
Lemma rank_by_contract k :
  (k <= length sims)%nat ->
  let idxs := rank_by before sims k in
  length idxs = k /\ NoDup idxs /\
  Forall (fun j => (j < length sims)%nat) idxs /\
  descending (score_at sims <$> idxs) /\
  (forall i j, (i < length sims)%nat -> i ∉ idxs -> j ∈ idxs ->
               (score_at sims i <= score_at sims j)%Q).
Proof.
  intros Hk idxs. unfold idxs, rank_by. fold (sorted_scores before sims).
  assert (Hlen : length sorted.*1 = length sims).
  { rewrite ranked_perm. apply length_seq. }
  assert (Hnd : NoDup sorted.*1) by (rewrite ranked_perm; apply NoDup_seq).
  split; [|split; [|split; [|split]]].
  - rewrite length_take. lia.
  - apply (sublist_NoDup _ _ Hnd), sublist_take.
  - apply Forall_take, Forall_forall. intros j Hj.
    rewrite ranked_perm in Hj. apply elem_of_seq in Hj. lia.
  - intros i j x y Hij Hi Hj.
    apply (ranked_descending i j x y Hij).
    + rewrite list_lookup_fmap in *. destruct (decide (i < k)%nat).
      * by rewrite lookup_take_lt in Hi.
      * rewrite lookup_take_ge in Hi by lia. done.
    + rewrite list_lookup_fmap in *. destruct (decide (j < k)%nat).
      * by rewrite lookup_take_lt in Hj.
      * rewrite lookup_take_ge in Hj by lia. done.
  - intros i j Hi Hni Hj.
    apply elem_of_take in Hj as (p & Hp & Hpk).
    assert (Hin : i ∈ sorted.*1).
    { rewrite ranked_perm. apply elem_of_seq. lia. }
    apply list_elem_of_lookup_1 in Hin as (q & Hq).
    assert (Hqk : (k <= q)%nat).
    { destruct (decide (k <= q)%nat); [done|]. exfalso. apply Hni.
      apply elem_of_take. exists q. split; [done | lia]. }
    apply (ranked_descending p q (score_at sims j) (score_at sims i)); [lia|..].
    + by rewrite list_lookup_fmap, Hp.
    + by rewrite list_lookup_fmap, Hq.
Qed.

End Ranking.

Section Ranker_facts.
Context `{External}.

Lemma traverse_index sentences idxs sel :
  traverse (index sentences) idxs = Ok sel ->
  sel = pick sentences idxs /\ Forall (fun j => (j < length sentences)%nat) idxs.
Proof.
  revert sel. induction idxs as [|j idxs IH]; intros sel; cbn [traverse].
  - intros [= <-]. by split.
  - unfold index at 1. destruct (sentences !! j) as [x|] eqn:Hj; [|done].
    destruct (traverse (index sentences) idxs) as [ys|e]; [|done].
    intros [= <-]. destruct (IH ys eq_refl) as [-> Hall]. split.
    + unfold pick. rewrite fmap_cons. by rewrite Hj.
    + constructor; [|done]. apply lookup_lt_is_Some. by eexists.
Qed.

Lemma top_k_loop_keeps sentences sent_emb asp_emb k i aspects acc st m st' a :
  top_k_loop sentences sent_emb asp_emb k i aspects acc st = (Ok m, st') ->
  a ∉ aspects -> m !! a = acc !! a.
Proof.
  revert i acc st. induction aspects as [|b rest IH]; intros i acc st; cbn [top_k_loop].
  - unfold ret. by intros [= <- <-].
  - unfold bind, call, lift.
    destruct (cos_sim _ _ _ _) as [[sims|e] w1]; [|done].
    destruct (topk _ _ _) as [[idxs|e] w2]; [|done]. cbn.
    destruct (traverse _ _) as [sel|e]; [|done].
    intros Hrun [Hne Hnin]%not_elem_of_cons.
    rewrite (IH _ _ _ Hrun Hnin). by rewrite lookup_insert_ne.
Qed.

Lemma top_k_loop_lookup sentences sent_emb asp_emb k i aspects acc st m st' pre a rest :
  top_k_loop sentences sent_emb asp_emb k i aspects acc st = (Ok m, st') ->
  aspects = pre ++ a :: rest -> a ∉ rest ->
  exists sel, m !! a = Some sel /\
              ranked_for sentences sent_emb asp_emb k (i + length pre) sel.
Proof.
  revert i acc st pre. induction aspects as [|b tl IH]; intros i acc st pre.
  - intros _ Heq. by destruct pre.
  - cbn [top_k_loop]. unfold bind, call, lift.
    destruct (cos_sim asp_emb i sent_emb (world st)) as [[sims|e] w1] eqn:Hsim; [|done].
    cbn [world].
    destruct (topk sims k w1) as [[idxs|e] w2] eqn:Htop; [|done]. cbn.
    destruct (traverse (index sentences) idxs) as [sel|e] eqn:Htr; [|done].
    intros Hrun Heq Hnin. destruct pre as [|p pre]; simplify_eq/=.
    + exists sel. split.
      * rewrite (top_k_loop_keeps _ _ _ _ _ _ _ _ _ _ _ Hrun Hnin).
        apply lookup_insert_eq.
      * destruct (traverse_index _ _ _ Htr) as [-> Hall].
        exists (world st), sims, w1, idxs, w2. rewrite Nat.add_0_r. by repeat split.
    + destruct (IH _ _ _ pre Hrun eq_refl Hnin) as (sel' & Hm & Hr).
      exists sel'. split; [done|].
      by replace (i + S (length pre))%nat with (S i + length pre)%nat by lia.
Qed.

(** C7 (as the code has it).  When ranking runs ([k] positive, at least one
    sentence) and returns, the snippet of an aspect is the sentences at the
    indices the top-k primitive returned for that aspect's scores, in the
    order it returned them, joined by single spaces; under the primitive's
    contract these are [min k n] sentences in non-increasing order of
    score.  The order among equal scores is the primitive's. *)
Theorem ranked_snippet sentences sent_emb aspects asp_emb k st top3 st' pre a rest :
  topk_contract ->
  (0 < k)%Z -> sentences <> [] ->
  top_k_sentences_per_aspect sentences sent_emb aspects asp_emb k st = (Ok top3, st') ->
  aspects = pre ++ a :: rest -> a ∉ rest ->
  let k' := Z.to_nat (Z.min k (Z.of_nat (length sentences))) in
  exists w sims w' idxs w'',
    cos_sim asp_emb (length pre) sent_emb w = (Ok sims, w') /\
    topk sims k' w' = (Ok idxs, w'') /\
    concat_asp_sentences top3 !! a = Some (join " " (pick sentences idxs)) /\
    length idxs = k' /\
    Forall (fun j => (j < length sentences)%nat) idxs /\
    descending (score_at sims <$> idxs).
Proof.
  intros Hcontract Hk Hsent Hrun Hasp Hnin k'.
  unfold top_k_sentences_per_aspect in Hrun.
  destruct (Z.min k (Z.of_nat (length sentences)) <=? 0)%Z eqn:Hmin.
  { apply Z.leb_le in Hmin. destruct sentences; [done|]. simpl length in Hmin. lia. }
  destruct (top_k_loop_lookup _ _ _ _ _ _ _ _ _ _ pre a rest Hrun Hasp Hnin)
    as (sel & Hm & w & sims & w' & idxs & w'' & Hsim & Htop & -> & Hall).
  exists w, sims, w', idxs, w''.
  destruct (Hcontract _ _ _ _ _ Htop) as (Hlen & _ & _ & Hdesc & _).
  repeat split; try done.
  unfold concat_asp_sentences. by rewrite lookup_fmap, Hm.
Qed.

End Ranker_facts.

(** ** The concrete collaborators meet the contracts *)

Lemma mk_env_topk_contract tokenize similarity before load classify key reply loads :
  orders_by_score before ->
  @topk_contract (mk_env tokenize similarity before load classify key reply loads).
Proof.
  intros Hord sims k w idxs w'. cbn [topk mk_env].
  destruct (k <=? length sims)%nat eqn:Hk; intros [= <- <-].
  apply rank_by_contract; [done|]. by apply Nat.leb_le.
Qed.

Lemma toy_json_contract tokenize similarity before load classify key reply :
  @json_contract (mk_env tokenize similarity before load classify key reply toy_loads).
Proof.
  split.
  - intros s. eexists. split; reflexivity.
  - intros s l. cbn [json_loads mk_env]. unfold toy_loads.
    destruct (String.eqb_spec (text s) "[]") as [Heq|]; [|done].
    intros [= <-]. exists [], [], []. repeat split.
    by rewrite <- (chars_text s), Heq.
Qed.

(** ** The theorems at concrete inputs *)

Lemma clean_text_idempotent_witness :
  clean_text (clean_text "A.B <br />  c<br>!") = clean_text "A.B <br />  c<br>!".
Proof.
  apply clean_text_idempotent.
  change (chars "A.B <br />  c<br>!")
    with (chars "A.B " ++ br_tag [" "%char] true ++ chars "  c" ++ br_tag [] false ++ chars "!").
  cbn [chars list_ascii_of_string app].
  repeat (apply bmo_char; [discriminate|]).
  apply bmo_tag; [reflexivity|].
  cbn [app].
  repeat (apply bmo_char; [discriminate|]).
  apply bmo_tag; [reflexivity|].
  repeat (apply bmo_char; [discriminate|]).
  apply bmo_nil.
Defined.

Lemma nli_threshold_witness :
  exists sent out st3,
    nli_loop (H:=demo_env) tt DEFAULT_NLI_THRESHOLD ∅ "Good." (["acting"%string] ++ "visuals"%string :: [])
      [] (fresh demo_env tt)
    = (Ok ([nli_row "acting" "positive" (round3 (9 # 10))]
           ++ nli_row "visuals" sent (round3 (2 # 5)) :: out), st3) /\
    ((2 # 5 < DEFAULT_NLI_THRESHOLD)%Q -> sent = "not_mentioned"%string) /\
    ((DEFAULT_NLI_THRESHOLD <= 2 # 5)%Q -> sent = "neutral"%string).
Proof.
  apply (nli_threshold (H:=demo_env) tt DEFAULT_NLI_THRESHOLD ∅ "Good."
           ["acting"%string] "visuals" [] [] (fresh demo_env tt)
           [nli_row "acting" "positive" (round3 (9 # 10))] (fresh demo_env tt)
           "neutral" ["positive"; "negative"]%string (2 # 5) [7 # 20; 1 # 4] tt).
  - reflexivity.
  - reflexivity.
Defined.

Lemma nli_failure_isolated_witness :
  exists out st3,
    nli_loop (H:=demo_env) tt DEFAULT_NLI_THRESHOLD ∅ "Good." ["visuals"%string] []
      (printed (with_world (fresh demo_env tt) tt)
         ("Error processing aspect '" +:+ "pacing" +:+ "': "
          +:+ exn_msg (RuntimeError "out of memory")))
      = (Ok out, st3) /\
    Forall2 row_for ["visuals"%string] out /\
    nli_loop (H:=demo_env) tt DEFAULT_NLI_THRESHOLD ∅ "Good."
      (["acting"%string] ++ "pacing"%string :: ["visuals"%string]) [] (fresh demo_env tt)
      = (Ok ([nli_row "acting" "positive" (round3 (9 # 10))]
             ++ nli_row "pacing" "error" 0 :: out), st3).
Proof.
  apply (nli_failure_isolated (H:=demo_env) tt DEFAULT_NLI_THRESHOLD ∅ "Good."
           ["acting"%string] "pacing" ["visuals"%string] [] (fresh demo_env tt)
           [nli_row "acting" "positive" (round3 (9 # 10))] (fresh demo_env tt)
           (RuntimeError "out of memory") tt).
  - reflexivity.
  - reflexivity.
Defined.

Lemma analyze_local_rows_witness :
  let df := fst (analyze (H:=demo_env) (Some "Good."%string)
                   (Some ["acting"; "pacing"]%string) LOCAL_METHOD (fresh demo_env tt)) in
  length df = 2%nat /\ aspect <$> df = [VStr "acting"; VStr "pacing"].
Proof.
  exact (analyze_local_rows (H:=demo_env) "Good." ["acting"; "pacing"]%string
           (fresh demo_env tt) (dict_comp ["acting"; "pacing"]%string "Good."%string)
           (fresh demo_env tt)
           ltac:(discriminate) ltac:(discriminate) eq_refl).
Defined.

Lemma nli_preprocess_fallback_witness :
  nli_preprocess (H:=no_tokenizer_env) "a<br>b" ["x"%string] (fresh no_tokenizer_env tt)
    = (Ok (dict_comp ["x"%string] "a b"%string),
       printed (fresh no_tokenizer_env tt)
         "Preprocessing failed: Resource punkt not found.. Falling back to full review.") /\
  focused (dict_comp ["x"%string] "a b"%string) "a<br>b" "x" = "a b"%string.
Proof.
  destruct (nli_preprocess_fallback (H:=no_tokenizer_env) "a<br>b" ["x"%string]
              DEFAULT_NLI_THRESHOLD (fresh no_tokenizer_env tt)
              (LookupError "Resource punkt not found.") (fresh no_tokenizer_env tt)
              eq_refl) as (Hpre & Hsnip & _).
  split; [exact Hpre|]. apply Hsnip. apply list_elem_of_singleton. reflexivity.
Defined.

Lemma analyze_other_method_is_local_witness :
  analyze (H:=demo_env) (Some "Good."%string) None "Zero-shot NLI" (fresh demo_env tt)
  = analyze (H:=demo_env) (Some "Good."%string) None LOCAL_METHOD (fresh demo_env tt).
Proof.
  exact (proj1 (analyze_other_method_is_local (H:=demo_env) (Some "Good."%string) None
                  "Zero-shot NLI" (fresh demo_env tt) ltac:(discriminate))).
Defined.

Lemma llm_parse_fenced_witness :
  llm_parse (H:=demo_env) (text (strip (chars nl ++ fenced (chars "JSON") (chars nl) (chars "[]")
                                          (chars nl) ++ [])))
    = Ok (VList []) /\
  llm_parse (H:=demo_env) (text (strip (chars "[]"))) = Ok (VList []).
Proof.
  destruct (llm_parse_fenced (H:=demo_env) (chars "[]") [] (chars "JSON")
              (chars nl) (chars nl) (chars nl) []
              (toy_json_contract _ _ _ _ _ _ _) eq_refl (or_intror eq_refl)
              eq_refl eq_refl eq_refl eq_refl) as (Hwrapped & Hplain & _).
  split; [exact Hwrapped | exact Hplain].
Defined.

Lemma ranked_snippet_witness :
  exists w sims w' idxs w'',
    cos_sim (External:=demo_env) ["pacing"%string] 0 four_sentences w = (Ok sims, w') /\
    topk (External:=demo_env) sims 3 w' = (Ok idxs, w'') /\
    concat_asp_sentences
      (match fst (top_k_sentences_per_aspect (H:=demo_env) four_sentences four_sentences
                    ["pacing"%string] ["pacing"%string] 3 (fresh demo_env tt)) with
       | Ok m => m
       | Raise _ => ∅
       end) !! "pacing"%string
      = Some (join " " (pick four_sentences idxs)) /\
    length idxs = 3%nat /\
    Forall (fun j => (j < length four_sentences)%nat) idxs /\
    descending (score_at sims <$> idxs).
Proof.
  apply (ranked_snippet (H:=demo_env) four_sentences four_sentences ["pacing"%string]
           ["pacing"%string] 3 (fresh demo_env tt) _ (fresh demo_env tt) [] "pacing" []).
  - apply mk_env_topk_contract, first_wins_orders.
  - reflexivity.
  - discriminate.
  - vm_compute. reflexivity.
  - reflexivity.
  - apply not_elem_of_nil.
Defined.

(** ** Where the specification and the code part *)

(** C2, as stated, fails when the classifier pipeline cannot be loaded: the
    table then holds the single [(error)] row, not one row per aspect. *)
Lemma analyze_local_rows_fails :
  ~ (forall (E : External) (review : string) (aspects : list string) (st : @state E),
       review <> ""%string -> aspects <> [] ->
       aspect <$> fst (analyze (H:=E) (Some review) (Some aspects) LOCAL_METHOD st)
       = VStr <$> aspects).
Proof.
  intros Hclaim.
  specialize (Hclaim no_pipeline_env "Good."%string ["acting"; "pacing"]%string
                (fresh no_pipeline_env tt) ltac:(discriminate) ltac:(discriminate)).
  vm_compute in Hclaim. discriminate Hclaim.
Qed.

(** C5, as stated, fails when a step after the cleaning raises: the snippet
    is the cleaned text, which differs from the raw review whenever cleaning
    changes it. *)
Lemma nli_preprocess_fallback_not_raw :
  ~ (forall (E : External) (review : string) (aspects : list string) (st : @state E) e st1,
       nli_snippets (H:=E) (clean_text review) aspects st = (Raise e, st1) ->
       forall a, a ∈ aspects ->
       exists snips st2,
         nli_preprocess (H:=E) review aspects st = (Ok snips, st2) /\
         snips !! a = Some review).
Proof.
  intros Hclaim.
  destruct (Hclaim no_tokenizer_env "a<br>b"%string ["x"%string] (fresh no_tokenizer_env tt)
              (LookupError "Resource punkt not found.") (fresh no_tokenizer_env tt)
              eq_refl "x"%string ltac:(apply list_elem_of_singleton; reflexivity))
    as (snips & st2 & Hpre & Hsnip).
  assert (Hrun : nli_preprocess (H:=no_tokenizer_env) "a<br>b" ["x"%string]
                   (fresh no_tokenizer_env tt)
                 = (Ok (dict_comp ["x"%string] "a b"%string),
                    printed (fresh no_tokenizer_env tt)
                      (fallback_line (LookupError "Resource punkt not found."))))
    by reflexivity.
  rewrite Hrun in Hpre. injection Hpre as <- _.
  vm_compute in Hsnip. discriminate Hsnip.
Qed.

(** C7, as stated, fails for a top-k primitive that meets its contract but
    puts a later sentence before an earlier one of equal score: the snippet
    then differs from the one that keeps original order among ties. *)
Lemma ranked_snippet_ties_not_stable :
  ~ (forall (E : External), @topk_contract E ->
     forall sentences sent_emb aspects asp_emb (st : @state E) top3 st' a sims w',
       top_k_sentences_per_aspect (H:=E) sentences sent_emb aspects asp_emb 3 st
         = (Ok top3, st') ->
       aspects = [a] ->
       cos_sim asp_emb 0 sent_emb (world st) = (Ok sims, w') ->
       concat_asp_sentences top3 !! a = Some (spec_snippet sentences sims 3)).
Proof.
  intros Hclaim.
  pose proof (Hclaim tie_env (mk_env_topk_contract _ _ _ _ _ _ _ _ last_wins_orders)
                four_sentences four_sentences ["pacing"%string] ["pacing"%string]
                (fresh tie_env tt)
                (match fst (top_k_sentences_per_aspect (H:=tie_env) four_sentences
                              four_sentences ["pacing"%string] ["pacing"%string] 3
                              (fresh tie_env tt)) with
                 | Ok m => m
                 | Raise _ => ∅
                 end)
                (fresh tie_env tt) "pacing"%string [1; 1; 1; 1]%Q tt
                ltac:(vm_compute; reflexivity) eq_refl eq_refl) as Hsnip.
  vm_compute in Hsnip. discriminate Hsnip.
Qed.

(** ** Runs on concrete inputs *)

Example clean_text_ex1 :
  clean_text "Great acting.<br />Bad   pacing!So  slow.<br>" =
  "Great acting. Bad pacing! So slow."%string.
Proof. vm_compute. reflexivity. Qed.

Example clean_text_ex2 : clean_text "A.B" = "A. B"%string.
Proof. vm_compute. reflexivity. Qed.

(** Outside the inputs of [clean_text_idempotent]: a tag inside a tag leaves
    a tag behind, which a second cleaning removes. *)
Example clean_text_nested_tag :
  clean_text "<br<br>>" = "<br >"%string /\ clean_text "<br >" = ""%string.
Proof. split; vm_compute; reflexivity. Qed.

Example analyze_demo_local :
  fst (analyze (H:=demo_env) (Some "Good. Fine."%string)
         (Some ["acting"; "pacing"; "visuals"]%string) LOCAL_METHOD (fresh demo_env tt))
  = [mk_row (VStr "acting") (VStr "positive");
     mk_row (VStr "pacing") (VStr "error");
     mk_row (VStr "visuals") (VStr "not_mentioned")].
Proof. vm_compute. reflexivity. Qed.

(** Model loading fails. *)
Example analyze_error_model_loading :
  fst (analyze (H:=no_pipeline_env) (Some "Good."%string)
         (Some ["acting"; "pacing"]%string) LOCAL_METHOD (fresh no_pipeline_env tt))
  = [mk_row (VStr "(error)")
       (VStr "OSError: typeform/distilbert-base-uncased-mnli is not a local folder")].
Proof. vm_compute. reflexivity. Qed.

(** The credential is missing. *)
Example analyze_error_missing_key :
  fst (analyze
         (H:=mk_env toy_tokenize toy_similarity first_wins (Ok tt) toy_classify None
                    (Ok (Some toy_reply)) toy_loads)
         (Some "Good."%string) None LLM_METHOD (@mk_state (mk_env _ _ _ _ _ _ _ _) tt None None None []))
  = [mk_row (VStr "(error)")
       (VStr ("ValueError: OpenAI API key not found. Please set OPENAI_API_KEY environment "
              +:+ "variable or add it to a .env file in the project root."))].
Proof. vm_compute. reflexivity. Qed.

(** The request fails on the network. *)
Example analyze_error_network :
  fst (analyze
         (H:=mk_env toy_tokenize toy_similarity first_wins (Ok tt) toy_classify
                    (Some "sk-demo"%string)
                    (Raise (mk_exn "APIConnectionError" ["OpenAIError"%string] "Connection error."))
                    toy_loads)
         (Some "Good."%string) None LLM_METHOD (@mk_state (mk_env _ _ _ _ _ _ _ _) tt None None None []))
  = [mk_row (VStr "(error)") (VStr "APIConnectionError: Connection error.")].
Proof. vm_compute. reflexivity. Qed.

(** The response is not JSON. *)
Example analyze_error_parsing :
  fst (analyze
         (H:=mk_env toy_tokenize toy_similarity first_wins (Ok tt) toy_classify
                    (Some "sk-demo"%string) (Ok (Some "Sorry, no."%string)) toy_loads)
         (Some "Good."%string) None LLM_METHOD (@mk_state (mk_env _ _ _ _ _ _ _ _) tt None None None []))
  = [mk_row (VStr "(error)")
       (VStr ("ValueError: Failed to parse OpenAI response as JSON. "
              +:+ "Response was: Sorry, no...."))].
Proof. vm_compute. reflexivity. Qed.

(** The remote strategy on a fenced reply. *)
Example analyze_demo_remote :
  fst (analyze (H:=demo_env) (Some "Good."%string) None LLM_METHOD (fresh demo_env tt)) = [].
Proof. vm_compute. reflexivity. Qed.

(** Ties under the two top-k primitives. *)
Example tie_snippets :
  spec_snippet four_sentences [1; 1; 1; 1]%Q 3
    = "The acting is superb. The pacing drags. The plot is thin."%string /\
  match fst (top_k_sentences_per_aspect (H:=tie_env) four_sentences four_sentences
               ["pacing"%string] ["pacing"%string] 3 (fresh tie_env tt)) with
  | Ok m => concat_asp_sentences m !! "pacing"%string
  | Raise _ => None
  end = Some "The visuals shine. The plot is thin. The pacing drags."%string.
Proof. split; vm_compute; reflexivity. Qed.

(** * Further properties *)

(** ** Text Normalizer: the shape of the output *)

Lemma rstrip_trimmed_end s : next_is is_space (rev (rstrip s)) = false.
Proof.
  induction s as [|c s IH]; [done|]. rewrite rstrip_cons.
  destruct (rstrip s) as [|d r] eqn:Hr.
  - destruct (is_space c) eqn:Hc; [done|]. simpl. by rewrite Hc.
  - change (rev (c :: d :: r)) with (rev (d :: r) ++ [c]).
    destruct (rev (d :: r)) as [|x t] eqn:Hrev; [|exact IH].
    apply (f_equal (@length ascii)) in Hrev. rewrite length_rev in Hrev. done.
Qed.

Lemma rstrip_id s : next_is is_space (rev s) = false -> rstrip s = s.
Proof.
  induction s as [|c s IH]; [done|]. intros Hend. rewrite rstrip_cons.
  destruct s as [|d s]; [simpl in *; by rewrite Hend|].
  rewrite IH.
  - done.
  - change (rev (c :: d :: s)) with (rev (d :: s) ++ [c]) in Hend.
    destruct (rev (d :: s)) as [|x t] eqn:Hrev; [|exact Hend].
    apply (f_equal (@length ascii)) in Hrev. rewrite length_rev in Hrev. done.
Qed.

Lemma strip_trimmed s : trimmed (strip s).
Proof.
  split.
  - apply rstrip_next, drop_spaces_head.
  - apply rstrip_trimmed_end.
Qed.

(** X1.  Whatever the input, the text [clean_text] returns neither starts
    nor ends with whitespace, and each whitespace character in it is a
    single space that is not followed by another whitespace character. *)
Theorem clean_text_whitespace_normal (x : string) :
  trimmed (chars (clean_text x)) /\ ws_norm (chars (clean_text x)).
Proof.
  unfold clean_text. rewrite chars_text. split.
  - apply strip_trimmed.
  - apply rstrip_norm, drop_spaces_norm, collapse_ws_norm.
Qed.

(** X2.  Whatever the input, in the text [clean_text] returns no full stop,
    exclamation mark or question mark is directly followed by a letter. *)
Theorem clean_text_punctuation_spaced (x : string) :
  punct_ok (chars (clean_text x)).
Proof.
  unfold clean_text. rewrite chars_text.
  apply rstrip_punct_ok, drop_spaces_punct_ok, collapse_ws_punct_ok, sub_punct_ok.
Qed.

Lemma ink_sub_punct s : ink (sub_punct s) = ink s.
Proof.
  induction s as [|c s IH]; [done|]. simpl.
  destruct (is_punct c && _); simpl; destruct (is_space c); by rewrite ?IH.
Qed.

Lemma ink_collapse_ws s : ink (collapse_ws s) = ink s.
Proof.
  induction s as [|c s IH]; [done|]. cbn [collapse_ws].
  destruct (is_space c) eqn:Hc.
  - destruct s as [|d s]; [by simpl; rewrite Hc|].
    destruct (is_space d) eqn:Hd.
    + rewrite IH. simpl. by rewrite Hc.
    + change (ink (" "%char :: collapse_ws (d :: s))) with (ink (collapse_ws (d :: s))).
      rewrite IH. simpl. by rewrite Hc.
  - simpl. rewrite Hc. by rewrite IH.
Qed.

Lemma ink_spaces ws : forallb is_space ws = true -> ink ws = [].
Proof.
  induction ws as [|c ws IH]; simpl; [done|].
  intros [Hc Hws]%andb_prop. rewrite Hc. auto.
Qed.

Lemma ink_app s1 s2 : ink (s1 ++ s2) = ink s1 ++ ink s2.
Proof.
  induction s1 as [|c s1 IH]; simpl; [done|]. destruct (is_space c); by rewrite IH.
Qed.

Lemma ink_drop_spaces s : ink (drop_spaces s) = ink s.
Proof.
  destruct (drop_spaces_suffix s) as (ws & Hs & Hws).
  assert (Hink : ink s = ink (ws ++ drop_spaces s)) by (by rewrite <- Hs).
  rewrite Hink, ink_app. by rewrite (ink_spaces ws Hws).
Qed.

Lemma ink_rstrip s : ink (rstrip s) = ink s.
Proof.
  induction s as [|c s IH]; [done|]. rewrite rstrip_cons. simpl.
  destruct (rstrip s) as [|d r] eqn:Hr.
  - simpl in IH. rewrite <- IH. destruct (is_space c) eqn:Hc; simpl; by rewrite ?Hc.
  - simpl. destruct (is_space c); by rewrite <- IH.
Qed.

(** X3.  On a text without [<], cleaning only adds, removes or replaces
    whitespace: the non-whitespace characters of the output are those of
    the input, in the same order. *)
Theorem clean_text_keeps_ink (x : string) :
  no_lt (chars x) -> ink (chars (clean_text x)) = ink (chars x).
Proof.
  intros Hx. unfold clean_text, clean_chars, strip. rewrite chars_text.
  rewrite ink_rstrip, ink_drop_spaces, ink_collapse_ws, ink_sub_punct.
  by rewrite sub_br_id.
Qed.

Lemma sub_br_spaces s : br_space_only s -> forallb is_space (sub_br s) = true.
Proof.
  induction 1 as [|c s Hc _ IH|ws slash s Hws _ IH].
  - done.
  - rewrite sub_br_other; [simpl; by rewrite Hc|].
    intros ->. discriminate Hc.
  - rewrite sub_br_tag by done. exact IH.
Qed.

Lemma forallb_Forall_true (p : ascii -> bool) s :
  forallb p s = true <-> Forall (fun c => p c = true) s.
Proof.
  rewrite forallb_forall, Forall_forall. split; intros Hs c Hc; apply Hs.
  - by apply list_elem_of_In.
  - by apply list_elem_of_In.
Qed.

Lemma drop_spaces_all ws : forallb is_space ws = true -> drop_spaces ws = [].
Proof.
  induction ws as [|c ws IH]; simpl; [done|].
  intros [Hc Hws]%andb_prop. rewrite Hc. auto.
Qed.

(** X4.  A text made only of line-break tags and whitespace is cleaned to
    the empty string. *)
Theorem clean_text_blank (x : string) :
  br_space_only (chars x) -> clean_text x = ""%string.
Proof.
  intros Hx. unfold clean_text, clean_chars, strip.
  rewrite drop_spaces_all; [reflexivity|].
  apply forallb_Forall_true, collapse_ws_Forall; [reflexivity|].
  apply sub_punct_Forall; [reflexivity|].
  by apply forallb_Forall_true, sub_br_spaces.
Qed.

(** X5.  A text that is already clean is left as it is: if it holds no [<],
    no sentence-ending mark directly followed by a letter, only single
    spaces as whitespace, and no whitespace at either end, then
    [clean_text] returns it unchanged. *)
Theorem clean_text_fixed_point (x : string) :
  no_lt (chars x) -> punct_ok (chars x) -> ws_norm (chars x) -> trimmed (chars x) ->
  clean_text x = x.
Proof.
  intros Hlt Hp Hn [Hhead Hend]. unfold clean_text, clean_chars, strip.
  rewrite sub_br_id, sub_punct_id, collapse_ws_id by done.
  rewrite drop_spaces_id, rstrip_id by done.
  apply text_chars.
Qed.

Lemma clean_text_keeps_ink_witness :
  ink (chars (clean_text "So good.Right?  Yes")) = ink (chars "So good.Right?  Yes").
Proof.
  apply clean_text_keeps_ink.
  repeat (apply Forall_cons; split; [discriminate|]). apply Forall_nil. done.
Defined.

Lemma clean_text_blank_witness : clean_text " <br> <br  />  " = ""%string.
Proof.
  apply clean_text_blank.
  change (chars " <br> <br  />  ")
    with (chars " " ++ br_tag [] false ++ chars " " ++ br_tag (chars "  ") true ++ chars "  ").
  cbn [chars list_ascii_of_string app].
  apply bso_space; [reflexivity|].
  apply bso_tag; [reflexivity|]. cbn [app].
  apply bso_space; [reflexivity|].
  apply bso_tag; [reflexivity|].
  repeat (apply bso_space; [reflexivity|]). apply bso_nil.
Defined.

Lemma clean_text_fixed_point_witness : clean_text "Good. Fine!" = "Good. Fine!"%string.
Proof.
  apply clean_text_fixed_point.
  - repeat (apply Forall_cons; split; [discriminate|]). apply Forall_nil. done.
  - cbn. repeat split.
  - cbn. repeat split; discriminate.
  - split; reflexivity.
Defined.

(** ** Local strategy: short reviews, coverage, edge cases *)

Section Local_more.
Context `{External}.

(** X6.  When segmentation yields at most three sentences, ranking is
    skipped: every aspect's snippet is the cleaned review, no embedding
    model is loaded and nothing is printed; only the tokenizer has run. *)
Theorem nli_short_review review aspects st sentences w :
  sent_tokenize (clean_text review) (world st) = (Ok sentences, w) ->
  (length sentences <= 3)%nat ->
  nli_preprocess review aspects st
    = (Ok (dict_comp aspects (clean_text review)), with_world st w) /\
  (forall a, a ∈ aspects ->
     focused (dict_comp aspects (clean_text review)) review a = clean_text review).
Proof.
  intros Htok Hlen. split.
  - unfold nli_preprocess, try_except, nli_snippets, get_sentences, bind, call.
    rewrite Htok. apply Nat.leb_le in Hlen. by rewrite Hlen.
  - intros a Ha. unfold focused. by rewrite dict_comp_lookup.
Qed.

Lemma dict_comp_is_Some {V : Type} (keys : list string) (v : V) a :
  a ∈ keys -> is_Some (dict_comp keys v !! a).
Proof. intros Ha. rewrite dict_comp_lookup by done. by eexists. Qed.

Lemma top_k_loop_covers sentences sent_emb asp_emb k i aspects acc st m st' a :
  top_k_loop sentences sent_emb asp_emb k i aspects acc st = (Ok m, st') ->
  a ∈ aspects \/ is_Some (acc !! a) -> is_Some (m !! a).
Proof.
  revert i acc st. induction aspects as [|b rest IH]; intros i acc st; cbn [top_k_loop].
  - unfold ret. intros [= <- <-] [Ha|Ha]; [by apply elem_of_nil in Ha | done].
  - unfold bind, call, lift.
    destruct (cos_sim _ _ _ _) as [[sims|e] w1]; [|done].
    destruct (topk _ _ _) as [[idxs|e] w2]; [|done]. cbn.
    destruct (traverse _ _) as [sel|e]; [|done].
    intros Hrun Ha. apply (IH _ _ _ Hrun).
    destruct (decide (a = b)) as [->|Hne].
    + right. rewrite lookup_insert_eq. by eexists.
    + destruct Ha as [Ha|Ha].
      * apply elem_of_cons in Ha as [?|?]; [done | by left].
      * right. by rewrite lookup_insert_ne.
Qed.

Lemma top_k_covers sentences sent_emb aspects asp_emb k st m st' a :
  top_k_sentences_per_aspect sentences sent_emb aspects asp_emb k st = (Ok m, st') ->
  a ∈ aspects -> is_Some (m !! a).
Proof.
  unfold top_k_sentences_per_aspect.
  destruct (_ <=? 0)%Z.
  - unfold ret. intros [= <- <-] Ha. by apply dict_comp_is_Some.
  - intros Hrun Ha. apply (top_k_loop_covers _ _ _ _ _ _ _ _ _ _ _ Hrun). by left.
Qed.

(** X7.  The dictionary of snippets has an entry for every requested
    aspect, on every path through preprocessing; so the lookup
    [aspect_snippets.get(a, review)] of the classification loop always finds
    the aspect and never returns its default. *)
Theorem nli_preprocess_covers review aspects st snips st' a :
  nli_preprocess review aspects st = (Ok snips, st') ->
  a ∈ aspects ->
  exists snippet, snips !! a = Some snippet /\ focused snips review a = snippet.
Proof.
  intros Hpre Ha.
  cut (is_Some (snips !! a)).
  { intros [snippet Hs]. exists snippet. unfold focused. by rewrite Hs. }
  revert Hpre. unfold nli_preprocess, try_except.
  destruct (nli_snippets _ _ _) as [[m|e] st1] eqn:Hsn.
  - intros [= <- <-]. revert Hsn.
    unfold nli_snippets, bind.
    destruct (get_sentences _ _) as [[sentences|e] st2]; [|done].
    destruct (length sentences <=? 3)%nat.
    { unfold ret. intros [= <- <-]. by apply dict_comp_is_Some. }
    destruct (embed_sentences _ _ _) as [[[sent_emb asp_emb]|e] st3]; [|done].
    destruct (top_k_sentences_per_aspect _ _ _ _ _ _) as [[top3|e] st4] eqn:Htop; [|done].
    unfold ret. intros [= <- <-]. unfold concat_asp_sentences. rewrite lookup_fmap.
    destruct (top_k_covers _ _ _ _ _ _ _ _ _ Htop Ha) as [sel ->]. by eexists.
  - unfold bind, print, ret. intros [= <- <-]. by apply dict_comp_is_Some.
Qed.

(** X8.  With no sentences, or with [k] not positive, ranking calls neither
    the similarity nor the top-k primitive: it returns at once, in the same
    state, the dictionary that gives every aspect the empty list, whose
    snippet is the empty string. *)
Theorem top_k_nothing_to_rank sentences sent_emb aspects asp_emb k st :
  sentences = [] \/ (k <= 0)%Z ->
  top_k_sentences_per_aspect sentences sent_emb aspects asp_emb k st
    = (Ok (dict_comp aspects []), st) /\
  (forall a, a ∈ aspects ->
     concat_asp_sentences (dict_comp aspects []) !! a = Some ""%string).
Proof.
  intros Hnone. split.
  - unfold top_k_sentences_per_aspect.
    replace (Z.min k (Z.of_nat (length sentences)) <=? 0)%Z with true; [done|].
    symmetry. apply Z.leb_le. destruct Hnone as [->|Hk]; simpl; lia.
  - intros a Ha. unfold concat_asp_sentences.
    by rewrite lookup_fmap, dict_comp_lookup.
Qed.

Lemma pick_seq sentences : pick sentences (seq 0 (length sentences)) = sentences.
Proof.
  unfold pick. apply list_eq. intros i. rewrite list_lookup_fmap.
  destruct (sentences !! i) as [x|] eqn:Hi.
  - assert (Hlt : (i < length sentences)%nat) by (apply lookup_lt_is_Some; by eexists).
    rewrite (lookup_seq_lt _ _ _ Hlt). simpl. by rewrite Hi.
  - apply lookup_ge_None in Hi. by rewrite lookup_seq_ge.
Qed.

(** X9.  When [k] is at least the number of sentences (and there is one),
    a top-k primitive that meets its contract selects every sentence: the
    sentences stored for an aspect are all the sentences, each once, in the
    primitive's order. *)
Theorem top_k_selects_all sentences sent_emb aspects asp_emb k st top3 st' pre a rest :
  topk_contract ->
  sentences <> [] -> (Z.of_nat (length sentences) <= k)%Z ->
  top_k_sentences_per_aspect sentences sent_emb aspects asp_emb k st = (Ok top3, st') ->
  aspects = pre ++ a :: rest -> a ∉ rest ->
  exists sel, top3 !! a = Some sel /\ sel ≡ₚ sentences.
Proof.
  intros Hcontract Hsent Hk Hrun Hasp Hnin.
  unfold top_k_sentences_per_aspect in Hrun.
  assert (Hn : (0 < length sentences)%nat) by (destruct sentences; [done | simpl; lia]).
  rewrite Z.min_r in Hrun by done.
  destruct (Z.of_nat (length sentences) <=? 0)%Z eqn:Hz; [apply Z.leb_le in Hz; lia|].
  rewrite Nat2Z.id in Hrun.
  destruct (top_k_loop_lookup _ _ _ _ _ _ _ _ _ _ pre a rest Hrun Hasp Hnin)
    as (sel & Hm & w & sims & w' & idxs & w'' & Hsim & Htop & -> & Hall).
  exists (pick sentences idxs). split; [done|].
  destruct (Hcontract _ _ _ _ _ Htop) as (Hlen & Hnd & _).
  assert (Hperm : idxs ≡ₚ seq 0 (length sentences)).
  { apply submseteq_length_Permutation.
    - apply NoDup_submseteq; [done|]. intros j Hj.
      rewrite Forall_forall in Hall. apply elem_of_seq. specialize (Hall j Hj). lia.
    - rewrite length_seq. lia. }
  rewrite <- (pick_seq sentences) at 2. unfold pick. by rewrite Hperm.
Qed.

End Local_more.

Lemma nli_short_review_witness :
  nli_preprocess (H:=demo_env) "Good.<br/>Fine." ["acting"; "pacing"]%string (fresh demo_env tt)
    = (Ok (dict_comp ["acting"; "pacing"]%string (clean_text "Good.<br/>Fine.")),
       with_world (fresh demo_env tt) tt) /\
  (forall a, a ∈ ["acting"; "pacing"]%string ->
     focused (dict_comp ["acting"; "pacing"]%string (clean_text "Good.<br/>Fine."))
       "Good.<br/>Fine." a = clean_text "Good.<br/>Fine.").
Proof.
  apply (nli_short_review (H:=demo_env) "Good.<br/>Fine." ["acting"; "pacing"]%string
           (fresh demo_env tt) ["Good."; "Fine."]%string tt).
  - reflexivity.
  - simpl. lia.
Defined.

Lemma nli_preprocess_covers_witness :
  exists snippet,
    fst (nli_preprocess (H:=demo_env) long_review ["pacing"%string] (fresh demo_env tt))
      = Ok {[ "pacing"%string := snippet ]} /\ snippet <> long_review.
Proof.
  destruct (nli_preprocess_covers (H:=demo_env) long_review ["pacing"%string]
              (fresh demo_env tt)
              (match fst (nli_preprocess (H:=demo_env) long_review ["pacing"%string]
                            (fresh demo_env tt)) with
               | Ok m => m
               | Raise _ => ∅
               end)
              (snd (nli_preprocess (H:=demo_env) long_review ["pacing"%string]
                      (fresh demo_env tt)))
              "pacing"%string
              ltac:(vm_compute; reflexivity)
              ltac:(apply list_elem_of_singleton; reflexivity))
    as (snippet & Hs & _).
  vm_compute in Hs. injection Hs as <-.
  eexists. split; [vm_compute; reflexivity | discriminate].
Defined.

Lemma top_k_nothing_to_rank_witness :
  top_k_sentences_per_aspect (H:=demo_env) [] [] ["pacing"%string] ["pacing"%string] 3
    (fresh demo_env tt)
  = (Ok (dict_comp ["pacing"%string] []), fresh demo_env tt).
Proof.
  exact (proj1 (top_k_nothing_to_rank (H:=demo_env) [] [] ["pacing"%string]
                  ["pacing"%string] 3 (fresh demo_env tt) (or_introl eq_refl))).
Defined.

Lemma top_k_selects_all_witness :
  exists sel,
    match fst (top_k_sentences_per_aspect (H:=demo_env) four_sentences four_sentences
                 ["pacing"%string] ["pacing"%string] 10 (fresh demo_env tt)) with
    | Ok m => m
    | Raise _ => ∅
    end !! "pacing"%string = Some sel /\ sel ≡ₚ four_sentences.
Proof.
  apply (top_k_selects_all (H:=demo_env) four_sentences four_sentences ["pacing"%string]
           ["pacing"%string] 10 (fresh demo_env tt) _ (fresh demo_env tt) [] "pacing" []).
  - apply mk_env_topk_contract, first_wins_orders.
  - discriminate.
  - simpl. lia.
  - vm_compute. reflexivity.
  - reflexivity.
  - apply not_elem_of_nil.
Defined.

(** ** The lazily loaded singletons *)

Section Frames.
Context `{External}.
Variable P : state -> state -> Prop.
Hypothesis P_refl : forall st, P st st.
Hypothesis P_trans : forall a b c, P a b -> P b c -> P a c.
Hypothesis P_world : forall st w, P st (with_world st w).

Lemma preserves_ret {A} (a : A) : preserves P (ret a).
Proof. intros st r st' [= <- <-]. apply P_refl. Qed.

Lemma preserves_raise {A} e : preserves P (@raise _ A e).
Proof. intros st r st' [= <- <-]. apply P_refl. Qed.

Lemma preserves_lift {A} (x : result A) : preserves P (lift x).
Proof. intros st r st' [= <- <-]. apply P_refl. Qed.

Lemma preserves_gets {A} (f : state -> A) : preserves P (gets f).
Proof. intros st r st' [= <- <-]. apply P_refl. Qed.

Lemma preserves_call {A} (f : W -> result A * W) : preserves P (call f).
Proof.
  intros st r st'. unfold call. destruct (f (world st)) as [x w].
  intros [= <- <-]. apply P_world.
Qed.

Lemma preserves_bind {A B} (m : M A) (k : A -> M B) :
  preserves P m -> (forall a, preserves P (k a)) -> preserves P (bind m k).
Proof.
  intros Hm Hk st r st'. unfold bind.
  destruct (m st) as [[a|e] st1] eqn:Hrun.
  - intros Hk'. eapply P_trans; [by eapply Hm | by eapply Hk].
  - intros [= <- <-]. by eapply Hm.
Qed.

Lemma preserves_try {A} (m : M A) (h : exn -> M A) :
  preserves P m -> (forall e, preserves P (h e)) -> preserves P (try_except m h).
Proof.
  intros Hm Hh st r st'. unfold try_except.
  destruct (m st) as [[a|e] st1] eqn:Hrun.
  - intros [= <- <-]. by eapply Hm.
  - intros Hh'. eapply P_trans; [by eapply Hm | by eapply Hh].
Qed.

End Frames.

Section Singletons.
Context `{External}.

Lemma same_client_refl st : same_client st st.
Proof. done. Qed.

Lemma same_client_trans a b c : same_client a b -> same_client b c -> same_client a c.
Proof. unfold same_client. congruence. Qed.

Lemma same_client_world st w : same_client st (with_world st w).
Proof. done. Qed.

Lemma print_same_client line : preserves same_client (print line).
Proof. by intros st r st' [= <- <-]. Qed.

Lemma get_sentence_model_same_client : preserves same_client _get_sentence_model.
Proof.
  intros st r st'. unfold _get_sentence_model, bind, gets, call, modify, ret.
  destruct (_sentence_model st); [by intros [= <- <-]|].
  destruct (SentenceTransformer _ _) as [[m|e] w]; by intros [= <- <-].
Qed.

Lemma get_zsc_pipeline_same_client : preserves same_client _get_zsc_pipeline.
Proof.
  intros st r st'. unfold _get_zsc_pipeline, bind, gets, call, modify, ret.
  destruct (_zsc_pipeline st); [by intros [= <- <-]|].
  destruct (pipeline _ _ _ _) as [[m|e] w]; by intros [= <- <-].
Qed.

Local Hint Resolve same_client_refl same_client_trans same_client_world : core.

Lemma top_k_loop_same_client sentences sent_emb asp_emb k i aspects acc :
  preserves same_client (top_k_loop sentences sent_emb asp_emb k i aspects acc).
Proof.
  revert i acc. induction aspects as [|a rest IH]; intros i acc; cbn [top_k_loop].
  - by apply preserves_ret.
  - apply preserves_bind; [eauto using same_client_trans | by apply preserves_call |].
    intros sims. apply preserves_bind; [eauto using same_client_trans | by apply preserves_call |].
    intros idxs. apply preserves_bind; [eauto using same_client_trans | by apply preserves_lift |].
    intros sel. apply IH.
Qed.

Lemma nli_preprocess_same_client review aspects :
  preserves same_client (nli_preprocess review aspects).
Proof.
  unfold nli_preprocess. apply preserves_try; [eauto using same_client_trans | |].
  - unfold nli_snippets, get_sentences.
    apply preserves_bind; [eauto using same_client_trans | by apply preserves_call |].
    intros sentences. destruct (_ <=? 3)%nat; [by apply preserves_ret|].
    apply preserves_bind; [eauto using same_client_trans | |].
    + unfold embed_sentences.
      apply preserves_bind;
        [eauto using same_client_trans | apply get_sentence_model_same_client |].
      intros m. apply preserves_bind; [eauto using same_client_trans | by apply preserves_call |].
      intros s. apply preserves_bind; [eauto using same_client_trans | by apply preserves_call |].
      intros a. by apply preserves_ret.
    + intros [sent_emb asp_emb].
      apply preserves_bind; [eauto using same_client_trans | |].
      * unfold top_k_sentences_per_aspect. destruct (_ <=? 0)%Z; [by apply preserves_ret|].
        apply top_k_loop_same_client.
      * intros top3. by apply preserves_ret.
  - intros e. apply preserves_bind; [eauto using same_client_trans | apply print_same_client |].
    intros _. by apply preserves_ret.
Qed.

Lemma nli_classify_same_client zsc thr snips review rows a :
  preserves same_client (nli_classify zsc thr snips review rows a).
Proof.
  unfold nli_classify. apply preserves_try; [eauto using same_client_trans | |].
  - apply preserves_bind; [eauto using same_client_trans | by apply preserves_call |].
    intros res. apply preserves_bind; [eauto using same_client_trans | by apply preserves_lift |].
    intros label. apply preserves_bind; [eauto using same_client_trans | by apply preserves_lift |].
    intros score. by apply preserves_ret.
  - intros e. apply preserves_bind; [eauto using same_client_trans | apply print_same_client |].
    intros _. by apply preserves_ret.
Qed.

Lemma nli_loop_same_client zsc thr snips review aspects rows :
  preserves same_client (nli_loop zsc thr snips review aspects rows).
Proof.
  revert rows. induction aspects as [|a rest IH]; intros rows; cbn [nli_loop].
  - by apply preserves_ret.
  - apply preserves_bind;
      [eauto using same_client_trans | apply nli_classify_same_client | intros r; apply IH].
Qed.

Lemma nli_aspect_sentiment_same_client review aspects thr :
  preserves same_client (nli_aspect_sentiment review aspects thr).
Proof.
  unfold nli_aspect_sentiment.
  apply preserves_bind;
    [eauto using same_client_trans | apply nli_preprocess_same_client |].
  intros snips. apply preserves_bind;
    [eauto using same_client_trans | apply get_zsc_pipeline_same_client |].
  intros zsc. apply nli_loop_same_client.
Qed.

(** X10.  With any method other than ["LLM (OpenAI)"], [analyze] never
    creates or replaces the remote client: the client slot of the process
    is after the call what it was before, whatever happened in between. *)
Theorem analyze_local_keeps_client review aspects method st :
  method <> LLM_METHOD ->
  _openai_client (snd (analyze review aspects method st)) = _openai_client st.
Proof.
  intros Hm. apply String.eqb_neq in Hm.
  unfold analyze, analyze_body.
  destruct review as [[|c r]|]; [done| |done].
  rewrite Hm. unfold bind at 1 2.
  destruct (nli_aspect_sentiment _ _ _ st) as [[rows|e] st1] eqn:Hrun;
    apply nli_aspect_sentiment_same_client in Hrun.
  - unfold ret, bind, lift. cbn [iterate].
    by destruct (traverse normalize_row rows).
  - done.
Qed.

Lemma same_local_models_trans a b c :
  same_local_models a b -> same_local_models b c -> same_local_models a c.
Proof. unfold same_local_models. intros (?&?&?) (?&?&?). repeat split; congruence. Qed.

Lemma llm_aspect_sentiment_same_models review aspects max_tokens :
  preserves same_local_models (llm_aspect_sentiment review aspects max_tokens).
Proof.
  assert (Hrefl : forall st, same_local_models st st) by done.
  assert (Hworld : forall st w, same_local_models st (with_world st w)) by done.
  unfold llm_aspect_sentiment.
  apply preserves_bind; [exact same_local_models_trans | |].
  - intros st r st'. unfold _get_openai_client, get_openai_api_key, bind, gets, call,
      modify, ret, raise.
    destruct (_openai_client st); [by intros [= <- <-]|].
    destruct (getenv _ _) as [[[|c k]|] w]; cbn; try by intros [= <- <-].
    destruct (OpenAI _ _) as [[cl|e] w']; by intros [= <- <-].
  - intros client.
    apply preserves_bind; [exact same_local_models_trans | by apply preserves_call |].
    intros [c|]; [by apply preserves_lift | by apply preserves_raise].
Qed.

(** X11.  With the method ["LLM (OpenAI)"], [analyze] loads neither the
    embedding model nor the classifier pipeline and prints nothing: those
    parts of the process state are after the call what they were before. *)
Theorem analyze_remote_keeps_models review aspects st :
  same_local_models st (snd (analyze review aspects LLM_METHOD st)).
Proof.
  unfold analyze, analyze_body.
  destruct review as [[|c r]|]; [done| |done].
  replace (String.eqb LLM_METHOD LLM_METHOD) with true by reflexivity.
  unfold bind at 1.
  destruct (llm_aspect_sentiment _ _ _ st) as [[data|e] st1] eqn:Hrun;
    apply llm_aspect_sentiment_same_models in Hrun; [|done].
  unfold bind, lift. destruct (iterate data) as [items|e]; [|done].
  by destruct (traverse normalize_row items).
Qed.

Lemma get_zsc_pipeline_slot st p st1 :
  _get_zsc_pipeline st = (Ok p, st1) -> _zsc_pipeline st1 = Some p.
Proof.
  unfold _get_zsc_pipeline, bind, gets, call, modify, ret.
  destruct (_zsc_pipeline st) as [p0|] eqn:Hc.
  - by intros [= <- <-].
  - destruct (pipeline _ _ _ _) as [[p0|e] w]; [|done]. by intros [= <- <-].
Qed.

(** X12.  Each of the three singletons is loaded at most once: after a call
    of its accessor that returned, the object is in its slot, and a further
    call returns the same object and leaves the state, the outside world
    included, untouched. *)
Theorem loaded_singletons_are_reused :
  (forall st m st1,
     _get_sentence_model st = (Ok m, st1) ->
     _sentence_model st1 = Some m /\ _get_sentence_model st1 = (Ok m, st1)) /\
  (forall st p st1,
     _get_zsc_pipeline st = (Ok p, st1) ->
     _zsc_pipeline st1 = Some p /\ _get_zsc_pipeline st1 = (Ok p, st1)) /\
  (forall st c st1,
     _get_openai_client st = (Ok c, st1) ->
     _openai_client st1 = Some c /\ _get_openai_client st1 = (Ok c, st1)).
Proof.
  split; [|split].
  - intros st m st1. unfold _get_sentence_model, bind, gets, call, modify, ret.
    destruct (_sentence_model st) as [m0|] eqn:Hc.
    + intros [= <- <-]. by rewrite Hc.
    + destruct (SentenceTransformer _ _) as [[m0|e] w]; [|done]. by intros [= <- <-].
  - intros st p st1. unfold _get_zsc_pipeline, bind, gets, call, modify, ret.
    destruct (_zsc_pipeline st) as [p0|] eqn:Hc.
    + intros [= <- <-]. by rewrite Hc.
    + destruct (pipeline _ _ _ _) as [[p0|e] w]; [|done]. by intros [= <- <-].
  - intros st c st1. unfold _get_openai_client, get_openai_api_key, bind, gets, call,
      modify, ret, raise.
    destruct (_openai_client st) as [c0|] eqn:Hc.
    + intros [= <- <-]. by rewrite Hc.
    + destruct (getenv _ _) as [[[|ch k]|] w]; cbn; try done.
      destruct (OpenAI _ _) as [[c0|e] w']; [|done]. by intros [= <- <-].
Qed.

(** X13.  A failed load is not remembered: when a slot is empty and the
    constructor raises, the accessor raises the same exception and leaves
    the slot empty, so the next call tries again.  For the remote client
    this also covers a missing or empty credential, in which case the
    client constructor is not called at all. *)
Theorem failed_load_is_not_cached :
  (forall st e w,
     _sentence_model st = None ->
     SentenceTransformer SENTENCE_TRANSFORMER_MODEL (world st) = (Raise e, w) ->
     _get_sentence_model st = (Raise e, with_world st w)) /\
  (forall st e w,
     _zsc_pipeline st = None ->
     pipeline "zero-shot-classification" ZERO_SHOT_MODEL (-1) (world st) = (Raise e, w) ->
     _get_zsc_pipeline st = (Raise e, with_world st w)) /\
  (forall st key w,
     _openai_client st = None ->
     getenv "OPENAI_API_KEY" (world st) = (key, w) ->
     match key with
     | None | Some EmptyString =>
         exists msg, _get_openai_client st = (Raise (ValueError msg), with_world st w)
     | Some k =>
         forall e w', OpenAI k w = (Raise e, w') ->
                      _get_openai_client st = (Raise e, with_world st w')
     end).
Proof.
  split; [|split].
  - intros st e w Hc Hload.
    unfold _get_sentence_model, bind, gets, call, modify, ret. by rewrite Hc, Hload.
  - intros st e w Hc Hload.
    unfold _get_zsc_pipeline, bind, gets, call, modify, ret. by rewrite Hc, Hload.
  - intros st key w Hc Hkey.
    unfold _get_openai_client, get_openai_api_key, bind, gets, call, modify, ret, raise.
    rewrite Hc, Hkey. destruct key as [[|ch k]|]; cbn.
    + by eexists.
    + intros e w' Hnew. by rewrite Hnew.
    + by eexists.
Qed.

(** X14.  The local strategy raises only when the classifier pipeline
    cannot be obtained: if [nli_aspect_sentiment] raises [e], preprocessing
    had returned snippets and it is the pipeline accessor that raised [e]. *)
Theorem nli_raises_only_on_load review aspects thr st e st' :
  nli_aspect_sentiment review aspects thr st = (Raise e, st') ->
  exists snips st1,
    nli_preprocess review (default DEFAULT_ASPECTS aspects) st = (Ok snips, st1) /\
    _get_zsc_pipeline st1 = (Raise e, st').
Proof.
  unfold nli_aspect_sentiment.
  destruct (nli_preprocess_total review (default DEFAULT_ASPECTS aspects) st)
    as (snips & st1 & Hpre).
  unfold bind at 1. rewrite Hpre. unfold bind at 1.
  destruct (_get_zsc_pipeline st1) as [[zsc|e0] st2] eqn:Hget.
  - destruct (nli_loop_total zsc (default DEFAULT_NLI_THRESHOLD thr) snips review
                (default DEFAULT_ASPECTS aspects) [] st2) as (out & st3 & Hloop & _).
    rewrite Hloop. done.
  - intros [= <- <-]. by exists snips, st1.
Qed.

(** X15.  When the classifier ranks the candidate labels it was given, the
    sentiment of every row of the local strategy is one of ["positive"],
    ["negative"], ["neutral"], ["not_mentioned"] and ["error"]. *)
Theorem nli_sentiment_values zsc thr snips review aspects rows st out st' :
  classifier_answers_candidates ->
  nli_loop zsc thr snips review aspects rows st = (Ok (rows ++ out), st') ->
  Forall (fun r => exists a label conf,
            r = nli_row a label conf /\ label ∈ SENTIMENT_VALUES) out.
Proof.
  intros Hzsc. revert rows st out st'.
  induction aspects as [|a rest IH]; intros rows st out st'; cbn [nli_loop].
  - unfold ret. intros [= Heq _].
    rewrite <- (app_nil_r rows) in Heq at 1. apply app_inv_head in Heq as <-. constructor.
  - unfold bind at 1.
    assert (Hone : exists label conf st1,
               nli_classify zsc thr snips review rows a st
                 = (Ok (rows ++ [nli_row a label conf]), st1) /\
               label ∈ SENTIMENT_VALUES).
    { unfold nli_classify, try_except, bind, call, lift, ret, print.
      destruct (zsc_call _ _ _ _ _) as [[[ls ss]|e] w] eqn:Hcall; cbn.
      - destruct ls as [|label ls]; cbn.
        { do 3 eexists. split; [reflexivity|]. set_solver. }
        destruct ss as [|score ss]; cbn.
        { do 3 eexists. split; [reflexivity|]. set_solver. }
        do 3 eexists. split; [reflexivity|].
        destruct (Qltb score thr); [set_solver|].
        change (label ∈ sentiments ++ ["not_mentioned"; "error"]%string).
        apply elem_of_app. left.
        by apply (Hzsc _ _ _ _ _ _ Hcall).
      - do 3 eexists. split; [reflexivity|]. set_solver. }
    destruct Hone as (label & conf & st1 & -> & Hlabel).
    intros Hrest.
    destruct (nli_loop_total zsc thr snips review rest (rows ++ [nli_row a label conf]) st1)
      as (out' & st2 & Hloop & _).
    rewrite Hloop in Hrest. injection Hrest as Heq _.
    rewrite <- app_assoc in Heq. apply app_inv_head in Heq as <-.
    constructor; [by exists a, label, conf|].
    by apply (IH _ _ _ _ Hloop).
Qed.

Lemma nli_loop_same_pipeline zsc thr snips review aspects rows st r st' :
  nli_loop zsc thr snips review aspects rows st = (r, st') -> same_pipeline st st'.
Proof.
  revert rows st. induction aspects as [|a rest IH]; intros rows st; cbn [nli_loop].
  - by intros [= <- <-].
  - unfold bind at 1.
    destruct (nli_classify _ _ _ _ _ _ _) as [[rows'|e] st1] eqn:Hone.
    + intros Hrest. apply IH in Hrest. revert Hone.
      unfold nli_classify, try_except, bind, call, lift, ret, print.
      destruct (zsc_call _ _ _ _ _) as [[[ls ss]|e] w]; cbn;
        [destruct ls; cbn; [|destruct ss; cbn]|];
        intros [= <- <-]; exact Hrest.
    + destruct (nli_classify_total zsc thr snips review rows a st) as (l & c & s & Heq).
      congruence.
Qed.

(** X16.  After a local analysis in which the classifier pipeline was
    obtained, the pipeline is in its slot in the state [analyze] leaves, so
    a later analysis in the same process does not load it again. *)
Theorem analyze_local_caches_pipeline review aspects st snips st1 p st2 :
  review <> ""%string -> aspects <> [] ->
  nli_preprocess review aspects st = (Ok snips, st1) ->
  _get_zsc_pipeline st1 = (Ok p, st2) ->
  _zsc_pipeline (snd (analyze (Some review) (Some aspects) LOCAL_METHOD st)) = Some p.
Proof.
  intros Hrev Hasp Hpre Hget.
  destruct review as [|c review]; [done|]. destruct aspects as [|a0 aspects]; [done|].
  rewrite (analyze_local_run _ _ _ _ _ _ _ Hpre), Hget.
  destruct (nli_loop _ _ _ _ _ _ _) as [[out|e] st3] eqn:Hloop;
    apply nli_loop_same_pipeline in Hloop; cbn [snd]; rewrite Hloop;
    by apply get_zsc_pipeline_slot in Hget.
Qed.

(** X17.  With no aspect list, or an empty one, the local analysis of a
    non-empty review is that of the six default aspects: when the
    classifier pipeline can be obtained the table has six rows whose aspect
    column is the default list, in its order. *)
Theorem analyze_local_default_aspects review aspects st snips st1 p st2 :
  review <> ""%string -> aspects = None \/ aspects = Some [] ->
  nli_preprocess review DEFAULT_ASPECTS st = (Ok snips, st1) ->
  _get_zsc_pipeline st1 = (Ok p, st2) ->
  aspect <$> fst (analyze (Some review) aspects LOCAL_METHOD st) = VStr <$> DEFAULT_ASPECTS.
Proof.
  intros Hrev Hasp Hpre Hget.
  destruct review as [|c review]; [done|].
  assert (Hsame : analyze (Some (String c review)) aspects LOCAL_METHOD st
                  = analyze (Some (String c review)) (Some DEFAULT_ASPECTS) LOCAL_METHOD st)
    by (by destruct Hasp as [-> | ->]).
  rewrite Hsame. unfold DEFAULT_ASPECTS in *.
  rewrite (analyze_local_run _ _ _ _ _ _ _ Hpre), Hget.
  destruct (nli_loop_total p DEFAULT_NLI_THRESHOLD snips (String c review)
              DEFAULT_ASPECTS [] st2) as (out & st3 & Hloop & Hrows).
  unfold DEFAULT_ASPECTS in *. rewrite Hloop. cbn [app].
  by destruct (normalize_nli_rows _ _ Hrows) as (df & -> & Hcol).
Qed.

End Singletons.

Lemma toy_classify_answers_candidates tokenize similarity before load key reply loads :
  @classifier_answers_candidates
    (mk_env tokenize similarity before load toy_classify key reply loads).
Proof.
  intros zsc t tpl w res w'. cbn [zsc_call mk_env]. unfold toy_classify.
  destruct (String.eqb tpl _); [done|].
  destruct (String.eqb tpl _); intros [= <- _] l [= <-]; set_solver.
Qed.

Lemma analyze_local_keeps_client_witness :
  _openai_client (snd (analyze (H:=demo_env) (Some long_review) None "NLI" (fresh demo_env tt)))
  = _openai_client (fresh demo_env tt).
Proof.
  apply (analyze_local_keeps_client (H:=demo_env)). discriminate.
Defined.

Lemma loaded_singletons_are_reused_witness :
  _zsc_pipeline (snd (_get_zsc_pipeline (H:=demo_env) (fresh demo_env tt))) = Some tt /\
  _get_zsc_pipeline (H:=demo_env) (snd (_get_zsc_pipeline (H:=demo_env) (fresh demo_env tt)))
  = (Ok tt, snd (_get_zsc_pipeline (H:=demo_env) (fresh demo_env tt))).
Proof.
  apply (proj1 (proj2 (loaded_singletons_are_reused (H:=demo_env)))
           (fresh demo_env tt) tt). reflexivity.
Defined.

Lemma failed_load_is_not_cached_witness :
  _get_zsc_pipeline (H:=no_pipeline_env) (fresh no_pipeline_env tt)
  = (Raise (OSError "typeform/distilbert-base-uncased-mnli is not a local folder"),
     with_world (fresh no_pipeline_env tt) tt).
Proof.
  apply (proj1 (proj2 (failed_load_is_not_cached (H:=no_pipeline_env)))); reflexivity.
Defined.

Lemma nli_raises_only_on_load_witness :
  exists snips st1,
    nli_preprocess (H:=no_pipeline_env) "Good." (default DEFAULT_ASPECTS None)
      (fresh no_pipeline_env tt) = (Ok snips, st1) /\
    _get_zsc_pipeline (H:=no_pipeline_env) st1
    = (Raise (OSError "typeform/distilbert-base-uncased-mnli is not a local folder"),
       with_world (fresh no_pipeline_env tt) tt).
Proof.
  apply (nli_raises_only_on_load (H:=no_pipeline_env) "Good." None None
           (fresh no_pipeline_env tt)).
  reflexivity.
Defined.

Lemma nli_sentiment_values_witness :
  Forall (fun r => exists a label conf,
            r = nli_row a label conf /\ label ∈ SENTIMENT_VALUES)
    [nli_row "acting" "positive" (round3 (9 # 10)); nli_row "pacing" "error" 0;
     nli_row "visuals" "not_mentioned" (round3 (2 # 5))].
Proof.
  apply (nli_sentiment_values (H:=demo_env) tt DEFAULT_NLI_THRESHOLD ∅ "Good."
           ["acting"; "pacing"; "visuals"]%string [] (fresh demo_env tt) _
           (snd (nli_loop (H:=demo_env) tt DEFAULT_NLI_THRESHOLD ∅ "Good."
                   ["acting"; "pacing"; "visuals"]%string [] (fresh demo_env tt)))).
  - apply toy_classify_answers_candidates.
  - reflexivity.
Defined.

Lemma analyze_local_caches_pipeline_witness :
  _zsc_pipeline (snd (analyze (H:=demo_env) (Some "Good."%string)
                        (Some ["acting"%string]) LOCAL_METHOD (fresh demo_env tt)))
  = Some tt.
Proof.
  apply (analyze_local_caches_pipeline (H:=demo_env) "Good." ["acting"%string]
           (fresh demo_env tt) (dict_comp ["acting"%string] "Good."%string)
           (fresh demo_env tt) tt
           (snd (_get_zsc_pipeline (H:=demo_env) (fresh demo_env tt))));
    [discriminate | discriminate | reflexivity | reflexivity].
Defined.

Lemma analyze_local_default_aspects_witness :
  aspect <$> fst (analyze (H:=demo_env) (Some "Good."%string) None LOCAL_METHOD
                    (fresh demo_env tt))
  = VStr <$> DEFAULT_ASPECTS.
Proof.
  apply (analyze_local_default_aspects (H:=demo_env) "Good." None (fresh demo_env tt)
           (dict_comp DEFAULT_ASPECTS "Good."%string) (fresh demo_env tt) tt
           (snd (_get_zsc_pipeline (H:=demo_env) (fresh demo_env tt))));
    [discriminate | by left | reflexivity | reflexivity].
Defined.

(** ** Remote strategy and the normalisation of its payload *)

Lemma app_split_fresh (c : ascii) l1 s2 pre rest :
  l1 ++ s2 = pre ++ c :: rest -> c ∉ l1 -> c ∉ pre ->
  exists pre2, pre = l1 ++ pre2 /\ s2 = pre2 ++ c :: rest.
Proof.
  revert pre. induction l1 as [|x l1 IH]; intros pre Heq Hl1 Hpre.
  - by exists pre.
  - apply not_elem_of_cons in Hl1 as [Hne Hl1].
    destruct pre as [|y pre]; cbn [app] in Heq; injection Heq as Hxy Heq; [done|].
    subst y. apply not_elem_of_cons in Hpre as [_ Hpre].
    destruct (IH pre Heq Hl1 Hpre) as (pre2 & -> & ->). by exists pre2.
Qed.

Lemma strip_prefix_ci_Some p s r :
  strip_prefix_ci p s = Some r -> exists tag, s = tag ++ r /\ to_lower <$> tag = p.
Proof.
  revert s. induction p as [|c p IH]; intros s; simpl.
  - intros [= ->]. by exists [].
  - destruct s as [|d s]; [done|].
    destruct (Ascii.eqb_spec c (to_lower d)) as [->|]; [|done].
    intros (tag & -> & <-)%IH. by exists (d :: tag).
Qed.

Lemma to_lower_not_bracket c : to_lower c ∈ chars "json" -> c <> "["%char.
Proof.
  intros Hin ->. vm_compute in Hin.
  repeat (apply elem_of_cons in Hin as [Hin|Hin]; [discriminate Hin|]).
  by apply elem_of_nil in Hin.
Qed.

Lemma drop_spaces_stop pre c rest :
  is_space c = false ->
  exists pre', drop_spaces (pre ++ c :: rest) = pre' ++ c :: rest /\
               (forall x, x ∈ pre' -> x ∈ pre).
Proof.
  intros Hc. induction pre as [|d pre (pre' & Heq & Hsub)]; simpl.
  - rewrite Hc. by exists [].
  - destruct (is_space d).
    + exists pre'. split; [done|]. intros x Hx. apply elem_of_cons. right. auto.
    + by exists (d :: pre).
Qed.

Lemma re_sub_elem m k s x : x ∈ re_sub m [] k s -> x ∈ s.
Proof.
  revert k. induction s as [|c s IH]; intros k; cbn [re_sub]; [done|].
  destruct k as [|k].
  - destruct (m (c :: s)) as [rest|].
    + cbn [app]. intros Hx%IH. apply elem_of_cons. by right.
    + intros [->|Hx%IH]%elem_of_cons; apply elem_of_cons; auto.
  - intros Hx%IH. apply elem_of_cons. by right.
Qed.

Lemma rstrip_after s c b :
  is_space c = false -> rstrip (s ++ c :: b) = s ++ c :: rstrip b.
Proof.
  intros Hc. induction s as [|d s IH]; cbn [app]; rewrite rstrip_cons.
  - destruct (rstrip b); [by rewrite Hc | done].
  - rewrite IH. by destruct s.
Qed.

Lemma rfind_None c s : c ∉ s -> rfind c s = None.
Proof.
  induction s as [|d s IH]; [done|]. intros [Hne Hs]%not_elem_of_cons. simpl.
  rewrite IH by done. destruct (Ascii.eqb_spec d c); [congruence | done].
Qed.

Lemma rfind_app_fresh c s post :
  c ∉ post -> rfind c (s ++ c :: post) = Some (length s).
Proof.
  intros Hpost. induction s as [|d s IH]; simpl.
  - by rewrite rfind_None, Ascii.eqb_refl.
  - by rewrite IH.
Qed.

Lemma find_None c s : c ∉ s -> find c s = None.
Proof.
  induction s as [|d s IH]; [done|]. intros [Hne Hs]%not_elem_of_cons. simpl.
  rewrite IH by done. destruct (Ascii.eqb_spec d c); [congruence | done].
Qed.

Lemma slice_span (pre core post : list ascii) :
  slice (pre ++ core ++ post) (length pre) (length pre + length core) = core.
Proof.
  unfold slice. rewrite drop_app_length.
  replace (length pre + length core - length pre)%nat with (length core) by lia.
  by rewrite take_app_length.
Qed.

Ltac list_norm := repeat (progress (rewrite <- ?app_assoc; cbn [app])).

(** The fence pattern removes nothing between the first [[] and the last
    []] of a text. *)
Lemma sub_fences_span pre mid post :
  "["%char ∉ pre -> "]"%char ∉ post ->
  exists pre' post',
    sub_fences (pre ++ "["%char :: mid ++ "]"%char :: post)
      = pre' ++ "["%char :: mid ++ "]"%char :: post' /\
    ("["%char ∉ pre') /\ ("]"%char ∉ post').
Proof.
  intros Hpre Hpost.
  assert (Hscan : forall pre', "["%char ∉ pre' ->
    exists post',
      re_sub match_close_fence [] 0 (pre' ++ "["%char :: mid ++ "]"%char :: post)
        = pre' ++ "["%char :: mid ++ "]"%char :: post' /\ ("]"%char ∉ post')).
  { intros pre' _. exists (re_sub match_close_fence [] 0 post). split.
    - replace (pre' ++ "["%char :: mid ++ "]"%char :: post)
        with ((pre' ++ "["%char :: mid) ++ "]"%char :: post) by (list_norm; reflexivity).
      rewrite re_sub_close_fence_bracket. list_norm. reflexivity.
    - intros Hin%re_sub_elem. done. }
  unfold sub_fences.
  destruct (match_open_fence _) as [r|] eqn:Hopen.
  - unfold match_open_fence in Hopen.
    destruct (strip_prefix fence _) as [s1|] eqn:Hf; [|done].
    destruct (strip_prefix_ci _ s1) as [s2|] eqn:Hj; [|done].
    injection Hopen as <-.
    apply strip_prefix_Some in Hf.
    apply strip_prefix_ci_Some in Hj as (tag & -> & Htag).
    rewrite app_assoc in Hf. symmetry in Hf.
    apply app_split_fresh in Hf as (pre2 & -> & ->); [| |done].
    + apply not_elem_of_app in Hpre as [_ Hpre2].
      destruct (drop_spaces_stop pre2 "["%char (mid ++ "]"%char :: post) eq_refl)
        as (pre3 & -> & Hsub).
      destruct (Hscan pre3) as (post' & -> & Hpost'); [by intros ?%Hsub|].
      exists pre3, post'. split; [done|]. split; [by intros ?%Hsub | done].
    + intros [Hin|Hin]%elem_of_app.
      * vm_compute in Hin.
        repeat (apply elem_of_cons in Hin as [Hin|Hin]; [discriminate Hin|]).
        by apply elem_of_nil in Hin.
      * apply (to_lower_not_bracket "["%char); [|done].
        rewrite <- Htag. by apply list_elem_of_fmap_2.
  - destruct (Hscan pre Hpre) as (post' & -> & Hpost'). by exists pre, post'.
Qed.

Section Remote_more.
Context `{External}.

(** X18.  Whatever surrounds them (prose, fences, whitespace), the text the
    second decoding attempt receives is exactly the span from the first
    [[] to the last []] of the response, whenever the first [[] comes
    before the last []]; so a response that fails to decode as a whole
    but holds an array between other text parses to what that span
    decodes to. *)
Theorem llm_parse_bracket_span txt pre mid post e :
  chars txt = pre ++ "["%char :: mid ++ "]"%char :: post ->
  "["%char ∉ pre -> "]"%char ∉ post ->
  json_loads txt = Raise e -> isinstance e "JSONDecodeError" = true ->
  llm_clean (chars txt) = "["%char :: mid ++ ["]"%char] /\
  (forall v, json_loads (text ("["%char :: mid ++ ["]"%char])) = Ok v ->
             llm_parse txt = Ok v).
Proof.
  intros Htxt Hpre Hpost He Hinst.
  assert (Hclean : llm_clean (chars txt) = "["%char :: mid ++ ["]"%char]).
  { rewrite Htxt. unfold llm_clean, strip.
    destruct (sub_fences_span pre mid post Hpre Hpost) as (pre1 & post1 & -> & Hpre1 & Hpost1).
    destruct (drop_spaces_stop pre1 "["%char (mid ++ "]"%char :: post1) eq_refl)
      as (pre2 & -> & Hsub).
    replace (pre2 ++ "["%char :: mid ++ "]"%char :: post1)
      with ((pre2 ++ "["%char :: mid) ++ "]"%char :: post1) by (list_norm; reflexivity).
    rewrite rstrip_after by reflexivity.
    assert (Hpost2 : "]"%char ∉ rstrip post1).
    { intros Hin. apply Hpost1.
      assert (Hall : Forall (fun c => c <> "]"%char) (rstrip post1)).
      { apply rstrip_Forall, Forall_forall. by intros c Hc ->. }
      rewrite Forall_forall in Hall. by specialize (Hall _ Hin). }
    rewrite rfind_app_fresh by done.
    replace ((pre2 ++ "["%char :: mid) ++ "]"%char :: rstrip post1)
      with (pre2 ++ "["%char :: (mid ++ "]"%char :: rstrip post1))
      by (list_norm; reflexivity).
    rewrite find_app_fresh by (by intros ?%Hsub).
    replace (pre2 ++ "["%char :: mid ++ "]"%char :: rstrip post1)
      with (pre2 ++ ("["%char :: mid ++ ["]"%char]) ++ rstrip post1)
      by (list_norm; reflexivity).
    replace (length (pre2 ++ "["%char :: mid) + 1)%nat
      with (length pre2 + length ("["%char :: mid ++ ["]"%char]))%nat.
    - apply slice_span.
    - rewrite !length_app. simpl. rewrite length_app. simpl. lia. }
  split; [exact Hclean|].
  intros v Hv. unfold llm_parse. by rewrite He, Hinst, Hclean, Hv.
Qed.

(** X19.  When the slot of the remote client is empty and the credential is
    missing or empty, a remote analysis of a non-empty review makes no
    request: it returns the single [(error)] row that names the missing
    credential, and the outside world has only been asked for the
    environment variable. *)
Theorem analyze_remote_missing_key review aspects st key w :
  review <> ""%string ->
  _openai_client st = None ->
  getenv "OPENAI_API_KEY" (world st) = (key, w) ->
  key = None \/ key = Some ""%string ->
  analyze (Some review) aspects LLM_METHOD st
  = ([mk_row (VStr "(error)") (VStr ("ValueError: " +:+ MISSING_KEY_MESSAGE))],
     with_world st w).
Proof.
  intros Hrev Hslot Hkey Hmissing. destruct review as [|c r]; [done|].
  unfold analyze, analyze_body.
  replace (String.eqb LLM_METHOD LLM_METHOD) with true by reflexivity.
  unfold llm_aspect_sentiment, _get_openai_client, get_openai_api_key,
    bind, gets, call, modify, ret, raise.
  rewrite Hslot, Hkey. by destruct Hmissing as [-> | ->].
Qed.

Lemma traverse_normalize_dicts dicts :
  traverse normalize_row (VDict <$> dicts) = Ok (row_of_items <$> dicts).
Proof.
  induction dicts as [|d dicts IH]; [done|].
  rewrite !fmap_cons. cbn [traverse normalize_row get]. by rewrite IH.
Qed.

Lemma traverse_normalize_bad dicts v rest :
  is_dict v = false ->
  traverse normalize_row ((VDict <$> dicts) ++ v :: rest)
  = Raise (AttributeError ("'" +:+ type_name v +:+ "' object has no attribute 'get'")).
Proof.
  intros Hv. induction dicts as [|d dicts IH].
  - cbn [fmap list_fmap app traverse]. by destruct v.
  - rewrite fmap_cons. cbn [app traverse normalize_row get]. by rewrite IH.
Qed.

(** X20.  The table of a remote analysis is rebuilt from the payload, not
    from the request: when the strategy returns an array of objects, the
    table has one row per object, in the payload's order, holding the
    object's [aspect] and [sentiment] values (the empty string for a
    missing key) and nothing else, whatever aspects were asked for. *)
Theorem analyze_remote_rows review aspects st dicts st' :
  review <> ""%string ->
  llm_aspect_sentiment review (Some (effective_aspects aspects)) None st
    = (Ok (VList (VDict <$> dicts)), st') ->
  analyze (Some review) aspects LLM_METHOD st = (row_of_items <$> dicts, st').
Proof.
  intros Hrev Hrun. destruct review as [|c r]; [done|].
  unfold analyze, analyze_body.
  replace (String.eqb LLM_METHOD LLM_METHOD) with true by reflexivity.
  unfold bind at 1. fold (effective_aspects aspects). rewrite Hrun.
  unfold bind, lift. cbn [iterate]. by rewrite traverse_normalize_dicts.
Qed.

(** X21.  One element of the payload that is not an object spoils the whole
    table: the result is the single [(error)] row reporting that the
    element's type has no [get], and the rows before it are lost. *)
Theorem analyze_remote_bad_element review aspects st dicts v rest st' :
  review <> ""%string -> is_dict v = false ->
  llm_aspect_sentiment review (Some (effective_aspects aspects)) None st
    = (Ok (VList ((VDict <$> dicts) ++ v :: rest)), st') ->
  analyze (Some review) aspects LLM_METHOD st
  = ([mk_row (VStr "(error)")
        (VStr ("AttributeError: '" +:+ type_name v +:+ "' object has no attribute 'get'"))],
     st').
Proof.
  intros Hrev Hv Hrun. destruct review as [|c r]; [done|].
  unfold analyze, analyze_body.
  replace (String.eqb LLM_METHOD LLM_METHOD) with true by reflexivity.
  unfold bind at 1. fold (effective_aspects aspects). rewrite Hrun.
  unfold bind, lift. cbn [iterate]. by rewrite traverse_normalize_bad.
Qed.

End Remote_more.

Lemma llm_parse_bracket_span_witness :
  llm_clean (chars "Sure, here it is: [] Hope this helps.") = chars "[]" /\
  llm_parse (H:=demo_env) "Sure, here it is: [] Hope this helps." = Ok (VList []).
Proof.
  destruct (llm_parse_bracket_span (H:=demo_env) "Sure, here it is: [] Hope this helps."
              (chars "Sure, here it is: ") [] (chars " Hope this helps.")
              (JSONDecodeError "Expecting value: line 1 column 1 (char 0)")
              eq_refl
              ltac:(vm_compute; intros Hin;
                    repeat (apply elem_of_cons in Hin as [Hin|Hin]; [discriminate Hin|]);
                    by apply elem_of_nil in Hin)
              ltac:(vm_compute; intros Hin;
                    repeat (apply elem_of_cons in Hin as [Hin|Hin]; [discriminate Hin|]);
                    by apply elem_of_nil in Hin)
              eq_refl eq_refl) as [Hclean Hparse].
  split; [exact Hclean | exact (Hparse _ eq_refl)].
Defined.

Lemma analyze_remote_missing_key_witness :
  analyze (H:=no_key_env) (Some "Good."%string) None LLM_METHOD (fresh no_key_env tt)
  = ([mk_row (VStr "(error)") (VStr ("ValueError: " +:+ MISSING_KEY_MESSAGE))],
     with_world (fresh no_key_env tt) tt).
Proof.
  apply (analyze_remote_missing_key (H:=no_key_env) "Good." None (fresh no_key_env tt) None tt);
    [discriminate | reflexivity | reflexivity | by left].
Defined.

Lemma analyze_remote_rows_witness :
  fst (analyze (H:=objects_env) (Some "Good."%string) (Some ["acting"; "pacing"; "plot"]%string)
         LLM_METHOD (fresh objects_env tt))
  = [mk_row (VStr "acting") (VStr "positive"); mk_row (VStr "music") (VStr "")].
Proof.
  rewrite (analyze_remote_rows (H:=objects_env) "Good." (Some ["acting"; "pacing"; "plot"]%string)
             (fresh objects_env tt) objects_payload
             (snd (llm_aspect_sentiment (H:=objects_env) "Good."
                     (Some ["acting"; "pacing"; "plot"]%string) None (fresh objects_env tt)))
             ltac:(discriminate) ltac:(vm_compute; reflexivity)).
  reflexivity.
Defined.

Lemma analyze_remote_bad_element_witness :
  fst (analyze (H:=number_env) (Some "Good."%string) None LLM_METHOD (fresh number_env tt))
  = [mk_row (VStr "(error)")
       (VStr "AttributeError: 'int' object has no attribute 'get'")].
Proof.
  rewrite (analyze_remote_bad_element (H:=number_env) "Good." None (fresh number_env tt)
             [] (VInt 1) []
             (snd (llm_aspect_sentiment (H:=number_env) "Good."
                     (Some DEFAULT_ASPECTS) None (fresh number_env tt)))
             ltac:(discriminate) eq_refl ltac:(vm_compute; reflexivity)).
  reflexivity.
Defined.

(** ** The command-line runner *)

Section Cli_facts.
Context `{External} `{!CliExternal}.

(** The runner's printing of one review never raises: the analysis cannot,
    and nothing else is called. *)
Lemma analyze_review_cli_total review aspects method st :
  exists st', analyze_review_cli review aspects method st = (Ok tt, st').
Proof.
  unfold analyze_review_cli, bind, print.
  destruct (analyze _ _ _ _) as [df st1]. by eexists.
Qed.

(** X22.  With [--web], every other option is ignored: two runs that both
    ask for the web interface do the same, whatever else they were given. *)
Theorem main_web_ignores_rest (a b : cli_args) st :
  arg_web a = true -> arg_web b = true -> main a st = main b st.
Proof. intros Ha Hb. unfold main. by rewrite Ha, Hb. Qed.

(** X23.  Without [--web], a non-empty [--review] wins over [--file], the
    dataset options and [--test]: the run prints the analysis of exactly
    that review with the given aspects and method, and it returns normally,
    whatever happens inside the analysis. *)
Theorem main_review_first args st :
  arg_web args = false -> truthy_str (arg_review args) = true ->
  main args st
    = (analyze_review_cli (default ""%string (arg_review args)) (arg_aspects args)
         (arg_method args) ;;; ret Returned) st /\
  fst (main args st) = Ok Returned.
Proof.
  intros Hweb Hrev.
  assert (Hmain : main args st
    = (analyze_review_cli (default ""%string (arg_review args)) (arg_aspects args)
         (arg_method args) ;;; ret Returned) st).
  { unfold main, review_source. rewrite Hweb, Hrev.
    unfold bind at 1. unfold ret at 1. by rewrite Hrev. }
  split; [exact Hmain|]. rewrite Hmain. unfold bind.
  by destruct (analyze_review_cli_total (default ""%string (arg_review args))
                 (arg_aspects args) (arg_method args) st) as [st' ->].
Qed.

(** X24.  An option given an empty value counts as not given: an empty
    [--review], [--file] or [--dataset] string, and [--test 0], leave the
    run what it is without that option. *)
Theorem main_empty_option_is_absent args st :
  main (with_review args (Some ""%string)) st = main (with_review args None) st /\
  main (with_file args (Some ""%string)) st = main (with_file args None) st /\
  main (with_dataset args (Some ""%string)) st = main (with_dataset args None) st /\
  main (with_test args (Some 0%Z)) st = main (with_test args None) st.
Proof.
  repeat split; unfold main, review_source; cbn [arg_web arg_review arg_file arg_dataset
    arg_dataset_kaggle arg_aspects arg_method arg_test with_review with_file with_dataset
    with_test truthy_str truthy_int Z.eqb negb]; reflexivity.
Qed.




Lemma find_in_files_none root files :
  Forall (fun f => is_imdb_csv f = false) files -> find_in_files root files = None.
Proof.
  induction 1 as [|f files Hf _ IH]; [done|]. simpl.
  unfold is_imdb_csv in Hf. by rewrite Hf.
Qed.

Lemma find_in_files_first root before file after :
  Forall (fun f => is_imdb_csv f = false) before -> is_imdb_csv file = true ->
  find_in_files root (before ++ file :: after) = Some (path_join root file).
Proof.
  intros Hbefore Hfile. induction Hbefore as [|f files Hf _ IH]; simpl.
  - unfold is_imdb_csv in Hfile. by rewrite Hfile.
  - unfold is_imdb_csv in Hf. by rewrite Hf.
Qed.

(** X26.  The CSV file the Kaggle loader reads is the first one, in the
    order of the directory walk, whose name ends in [.csv] and holds [IMDB]:
    directories without such a file are passed over, and within the first
    directory that has one the earliest such file is taken. *)
Theorem find_csv_first_match dirs root before file after rest :
  Forall (fun d => Forall (fun f => is_imdb_csv f = false) (snd d)) dirs ->
  Forall (fun f => is_imdb_csv f = false) before ->
  is_imdb_csv file = true ->
  path_join root file <> ""%string ->
  find_csv (dirs ++ (root, before ++ file :: after) :: rest) None
  = Some (path_join root file).
Proof.
  intros Hdirs Hbefore Hfile Hjoin.
  induction Hdirs as [|[r fs] dirs Hd _ IH]; cbn [app find_csv].
  - rewrite find_in_files_first by done.
    destruct (path_join root file); [done | reflexivity].
  - rewrite find_in_files_none by done. exact IH.
Qed.

(** X27.  Asking for tests without a dataset that loads ends the run with
    exit status 1: after the loader's own messages one error line is
    printed, and no review is analysed. *)
Theorem main_test_needs_dataset args st st1 :
  arg_web args = false ->
  truthy_str (arg_review args) = false -> truthy_str (arg_file args) = false ->
  truthy_int (arg_test args) = true ->
  requested_dataset args st = (Ok None, st1) ->
  main args st
  = (Ok (Exited 1),
     printed st1 "Error: Could not load dataset. Use --dataset or --dataset-kaggle").
Proof.
  intros Hweb Hrev Hfile Htest Hload.
  unfold main, review_source. rewrite Hweb, Hrev, Hfile, Htest.
  rewrite !orb_true_r. unfold bind at 1 2.
  fold (requested_dataset args). by rewrite Hload.
Qed.

Lemma review_source_exit args st code st' :
  review_source args st = (Ok (inr (Exited code)), st') -> code = 1%Z.
Proof.
  unfold review_source.
  destruct (truthy_str (arg_review args)); [by intros [= ]|].
  destruct (truthy_str (arg_file args)).
  { unfold try_except, bind, call, print, ret.
    destruct (read_file _ _) as [[content|e] w]; cbn; [done | by intros [= <- _]]. }
  destruct (_ || _ || _); [|done].
  unfold bind at 1. fold (requested_dataset args).
  destruct (requested_dataset args st) as [[[df|]|e] st1]; [| |done].
  - destruct (truthy_int (arg_test args)).
    + unfold bind, lift, print, ret.
      destruct (reviews_head _ _) as [reviews|e]; [|done]. cbn.
      by destruct (test_loop _ _ _ _ _ _) as [[[]|e] st2].
    + unfold bind, lift, print, ret.
      by destruct (first_review df).
  - destruct (truthy_int (arg_test args)); [|done].
    unfold bind, print, ret. by intros [= <- _].
Qed.

(** X28.  The only exit status [main] ever passes to [sys.exit] is 1. *)
Theorem main_exit_status_is_one args st code st' :
  main args st = (Ok (Exited code), st') -> code = 1%Z.
Proof.
  unfold main, create_gradio_interface. destruct (arg_web args).
  - destruct gradio_installed; cbn.
    + unfold bind, print, ret, call. cbn.
      destruct (build_interface (world st)) as [[demo|e] w]; cbn; [|done].
      by destruct (launch demo w) as [[[]|e] w'].
    + unfold bind, print, ret. by intros [= <- _].
  - unfold bind at 1.
    destruct (review_source args st) as [[[review_text|status]|e] st1] eqn:Hsrc; [| |done].
    + destruct (truthy_str review_text).
      * unfold bind.
        by destruct (analyze_review_cli_total (default ""%string review_text)
                       (arg_aspects args) (arg_method args) st1) as [st2 ->].
      * unfold show_help, bind, print, ret. done.
    + unfold ret. intros [= -> <-]. by eapply review_source_exit.
Qed.

(** X29.  A file that reads as the empty string is no input: the run
    prints the help text and the examples, analyses nothing and returns. *)
Theorem main_empty_file_shows_help args st w :
  arg_web args = false ->
  truthy_str (arg_review args) = false -> truthy_str (arg_file args) = true ->
  read_file (default ""%string (arg_file args)) (world st) = (Ok ""%string, w) ->
  main args st = (show_help ;;; ret Returned) (with_world st w).
Proof.
  intros Hweb Hrev Hfile Hread.
  unfold main, review_source. rewrite Hweb, Hrev, Hfile.
  unfold bind at 1. unfold try_except, bind at 1, call. by rewrite Hread.
Qed.

End Cli_facts.

Lemma main_web_ignores_rest_witness :
  main (H:=demo_env) (H0:=demo_cli)
    (mk_cli_args true (Some "Good."%string) None None false DEFAULT_ASPECTS LLM_METHOD (Some 3%Z))
    (fresh demo_env tt)
  = main (H:=demo_env) (H0:=demo_cli)
      (mk_cli_args true None None None false [] LOCAL_METHOD None) (fresh demo_env tt).
Proof. apply (main_web_ignores_rest (H:=demo_env) (H0:=demo_cli)); reflexivity. Defined.

Lemma main_review_first_witness :
  fst (main (H:=demo_env) (H0:=demo_cli)
         (mk_cli_args false (Some "Good."%string) (Some "missing.txt"%string) None true
                      ["acting"%string] LOCAL_METHOD (Some 3%Z))
         (fresh demo_env tt))
  = Ok Returned.
Proof.
  apply (main_review_first (H:=demo_env) (H0:=demo_cli)); reflexivity.
Defined.

Lemma main_empty_option_is_absent_witness :
  main (H:=demo_env) (H0:=demo_cli) (with_test no_args (Some 0%Z)) (fresh demo_env tt)
  = main (H:=demo_env) (H0:=demo_cli) (with_test no_args None) (fresh demo_env tt).
Proof.
  apply (main_empty_option_is_absent (H:=demo_env) (H0:=demo_cli)).
Defined.


Lemma find_csv_first_match_witness :
  find_csv (H:=demo_env) (H0:=demo_cli)
    ([("/d"%string, ["readme.md"%string])]
     ++ ("/d/sub"%string, ["notes.csv"%string] ++ "IMDB Dataset.csv"%string :: ["IMDB2.csv"%string])
     :: [("/d/z"%string, ["IMDB3.csv"%string])]) None
  = Some "/d/sub/IMDB Dataset.csv"%string.
Proof.
  apply (find_csv_first_match (H:=demo_env) (H0:=demo_cli)).
  - repeat constructor.
  - repeat constructor.
  - reflexivity.
  - discriminate.
Defined.

Lemma main_test_needs_dataset_witness :
  main (H:=demo_env) (H0:=demo_cli) (with_test no_args (Some 3%Z)) (fresh demo_env tt)
  = (Ok (Exited 1),
     printed (fresh demo_env tt)
       "Error: Could not load dataset. Use --dataset or --dataset-kaggle").
Proof.
  apply (main_test_needs_dataset (H:=demo_env) (H0:=demo_cli)); reflexivity.
Defined.

Lemma main_exit_status_is_one_witness :
  fst (main (H:=demo_env) (H0:=demo_cli)
         (with_file no_args (Some "missing.txt"%string)) (fresh demo_env tt))
  = Ok (Exited 1) /\ 1%Z = 1%Z.
Proof.
  split; [reflexivity|].
  apply (main_exit_status_is_one (H:=demo_env) (H0:=demo_cli)
           (with_file no_args (Some "missing.txt"%string)) (fresh demo_env tt) 1
           (snd (main (H:=demo_env) (H0:=demo_cli)
                   (with_file no_args (Some "missing.txt"%string)) (fresh demo_env tt)))).
  reflexivity.
Defined.

Lemma main_empty_file_shows_help_witness :
  main (H:=demo_env) (H0:=demo_cli) (with_file no_args (Some "empty.txt"%string))
    (fresh demo_env tt)
  = (show_help (H:=demo_env) (H0:=demo_cli) ;;; ret Returned)
      (with_world (fresh demo_env tt) tt).
Proof.
  apply (main_empty_file_shows_help (H:=demo_env) (H0:=demo_cli)); reflexivity.
Defined.

(** Three reviews of the dataset, tested in turn. *)
Example main_demo_test_run :
  fst (main (H:=demo_env) (H0:=demo_cli)
         (mk_cli_args false None None (Some "imdb.csv"%string) false ["acting"%string]
                      LOCAL_METHOD (Some 2%Z))
         (fresh demo_env tt)) = Ok Returned /\
  length (stdout (snd (main (H:=demo_env) (H0:=demo_cli)
         (mk_cli_args false None None (Some "imdb.csv"%string) false ["acting"%string]
                      LOCAL_METHOD (Some 2%Z))
         (fresh demo_env tt)))) = 22%nat.
Proof. split; vm_compute; reflexivity. Qed.
